(** * homeassistant.helpers.storage: the debounced, versioned Store

    A shallow embedding of [src/homeassistant/helpers/storage.py] and the
    properties its specification states about it.

    Conventions of the embedding.
    - Python values that reach the store (payloads, records read back from
      disk) are JSON values; Python's [None] is [JNull].  JSON numbers are
      integers here (floating point values are outside the model).
    - A coroutine is a function on the system state returning an outcome and
      the new state.  Coroutines run one after the other: the place where a
      coroutine waits for an executor job is recorded, together with what the
      event loop holds at that moment, in the job trace of the world.
    - The operating system, the JSON files helper and the path resolution
      are not part of the module; they are operations of the class [OS]. *)

From Stdlib Require Import ZArith List Ascii String Bool Lia.
Import ListNotations.
Open Scope string_scope.
Open Scope list_scope.
Open Scope Z_scope.

Set Implicit Arguments.
Set Warnings "-register-all".

(** ** Values and exceptions *)

Inductive Json : Type :=
| JNull
| JBool (b : bool)
| JInt (n : Z)
| JStr (s : string)
| JList (l : list Json)
| JDict (d : list (string * Json)).

Inductive Exn : Type :=
| SerializationError
| WriteError
| HomeAssistantError
| NotImplementedError
| KeyError (k : string)
| TypeError
| OSError
| OtherError (name : string).

(** What running a coroutine (or an executor job) to its end gives:
    a value, a raised exception, or [Blocked] when it waits for something
    that never comes in the run at hand (a lock that is held). *)
Inductive Outcome (A : Type) : Type :=
| Ok (a : A)
| Raise (e : Exn)
| Blocked.

Arguments Raise {A} e.
Arguments Blocked {A}.

Definition is_None (j : Json) : bool :=
  match j with JNull => true | _ => false end.

(** [d[k]] on an association list: the first binding of [k]. *)
Fixpoint assoc (k : string) (d : list (string * Json)) : option Json :=
  match d with
  | [] => None
  | (k', v) :: d' => if String.eqb k k' then Some v else assoc k d'
  end.

(** Python's subscription [j[k]] with a string key. *)
Definition getitem (j : Json) (k : string) : Outcome Json :=
  match j with
  | JDict d =>
      match assoc k d with
      | Some v => Ok v
      | None => Raise (KeyError k)
      end
  | _ => Raise TypeError
  end.

(** Python's [j == n] for an integer [n]: [True == 1] and [False == 0]
    hold, every other kind of value differs from an integer. *)
Definition py_eq_int (j : Json) (n : Z) : bool :=
  match j with
  | JInt m => Z.eqb m n
  | JBool b => Z.eqb (if b then 1 else 0) n
  | _ => false
  end.

Definition STORAGE_DIR : string := ".storage".

(** ** The store object *)

Definition Handle := nat.

Record Store : Type := mkStore {
  version : Z;
  key : string;
  _data : Json;
  _unsub_delay_listener : option Handle;
  _unsub_stop_listener : option Handle;
  _write_lock : bool
}.

(** [Store.__init__] *)
Definition Store_init (version : Z) (key : string) : Store :=
  mkStore version key JNull None None false.

Definition set_data (d : Json) (st : Store) : Store :=
  mkStore (version st) (key st) d
          (_unsub_delay_listener st) (_unsub_stop_listener st) (_write_lock st).

Definition set_unsub_delay_listener (h : option Handle) (st : Store) : Store :=
  mkStore (version st) (key st) (_data st)
          h (_unsub_stop_listener st) (_write_lock st).

Definition set_unsub_stop_listener (h : option Handle) (st : Store) : Store :=
  mkStore (version st) (key st) (_data st)
          (_unsub_delay_listener st) h (_write_lock st).

Definition set_write_lock (b : bool) (st : Store) : Store :=
  mkStore (version st) (key st) (_data st)
          (_unsub_delay_listener st) (_unsub_stop_listener st) b.

(** The record a save buffers (lines 84-88). *)
Definition record_of (st : Store) (data : Json) : Json :=
  JDict [("version", JInt (version st)); ("key", JStr (key st)); ("data", data)].

(** ** The world around the store *)

Inductive LogRecord : Type :=
| LogError (key : string) (err : Exn)   (* 'Error writing config for %s: %s' *)
| LogDebug (key : string).              (* 'Writing data for %s' *)

Inductive Job : Type :=
| JobLoadOldConfig (old_path : string)
| JobLoadJson (path : string)
| JobWriteData (path : string) (data : Json)
| JobRemove (path : string).

(** What the event loop holds while an executor job runs: the store as any
    other coroutine would see it, the pending timers and the registered
    shutdown listeners. *)
Record Seen : Type := mkSeen {
  seen_store : Store;
  seen_timers : list (Handle * Z);
  seen_stop_listeners : list Handle
}.

(** Operations of the platform the module calls but does not define:
    [os.path.isfile], [os.path.isdir], [os.path.dirname], [os.makedirs],
    [os.remove], [util.json.load_json] (its second argument is the optional
    default), [util.json.save_json] and [hass.config.path]. *)
Class OS : Type := {
  FS : Type;
  os_path_isfile : string -> FS -> bool;
  os_path_isdir : string -> FS -> bool;
  os_path_dirname : string -> string;
  os_makedirs : string -> FS -> Outcome unit * FS;
  os_remove : string -> FS -> Outcome unit * FS;
  json_load_json : string -> option Json -> FS -> Outcome Json;
  json_save_json : string -> Json -> FS -> Outcome unit * FS;
  config_path : string -> string -> string
}.

Section Storage.

Context {os : OS}.

(** Modelled from the spec: the timer facility ([async_call_later]) and the
    shutdown-event facility ([bus.async_listen_once] on
    EVENT_HOMEASSISTANT_STOP) of section 6, as registries of cancellable
    handles; they hold the subscriptions of the one store of the system. *)
Record Hass : Type := mkHass {
  fs : FS;
  timers : list (Handle * Z);
  stop_listeners : list Handle;
  next_handle : Handle;
  log : list LogRecord;
  jobs : list (Job * Seen)
}.

Record Sys : Type := mkSys {
  self : Store;
  hass : Hass
}.

Definition M (A : Type) : Type := Sys -> Outcome A * Sys.

Definition ret {A} (a : A) : M A := fun s => (Ok a, s).

Definition raise {A} (e : Exn) : M A := fun s => (Raise e, s).

Definition bind {A B} (m : M A) (f : A -> M B) : M B :=
  fun s =>
    match m s with
    | (Ok a, s') => f a s'
    | (Raise e, s') => (Raise e, s')
    | (Blocked, s') => (Blocked, s')
    end.

Notation "x <- m ;; f" := (bind m (fun x => f))
  (at level 61, m at next level, right associativity).
Notation "m ;; f" := (bind m (fun _ => f))
  (at level 61, right associativity).

Definition lift {A} (o : Outcome A) : M A := fun s => (o, s).

Definition get_self : M Store := fun s => (Ok (self s), s).

Definition modify_self (f : Store -> Store) : M unit :=
  fun s => (Ok tt, mkSys (f (self s)) (hass s)).

Definition modify_hass (f : Hass -> Hass) : M unit :=
  fun s => (Ok tt, mkSys (self s) (f (hass s))).

Definition set_fs (x : FS) (h : Hass) : Hass :=
  mkHass x (timers h) (stop_listeners h) (next_handle h) (log h) (jobs h).

Definition set_timers (t : list (Handle * Z)) (h : Hass) : Hass :=
  mkHass (fs h) t (stop_listeners h) (next_handle h) (log h) (jobs h).

Definition set_stop_listeners (l : list Handle) (h : Hass) : Hass :=
  mkHass (fs h) (timers h) l (next_handle h) (log h) (jobs h).

Definition set_next_handle (n : Handle) (h : Hass) : Hass :=
  mkHass (fs h) (timers h) (stop_listeners h) n (log h) (jobs h).

Definition add_log (r : LogRecord) (h : Hass) : Hass :=
  mkHass (fs h) (timers h) (stop_listeners h) (next_handle h) (log h ++ [r])
         (jobs h).

Definition add_job (j : Job) (v : Seen) (h : Hass) : Hass :=
  mkHass (fs h) (timers h) (stop_listeners h) (next_handle h) (log h)
         (jobs h ++ [(j, v)]).

Definition seen (s : Sys) : Seen :=
  mkSeen (self s) (timers (hass s)) (stop_listeners (hass s)).

(** [hass.async_add_executor_job(fn, *args)]: the job is traced with what
    the event loop holds while the caller is suspended, then [fn] runs on
    the world; its result or exception comes back to the caller. *)
Definition async_add_executor_job {A} (j : Job)
    (fn : Hass -> Outcome A * Hass) : M A :=
  fun s =>
    let (r, h') := fn (add_job j (seen s) (hass s)) in
    (r, mkSys (self s) h').

(** ** Timer and shutdown-event facilities *)

Definition drop_handle (h : Handle) (l : list Handle) : list Handle :=
  filter (fun h' => negb (Nat.eqb h' h)) l.

Definition drop_timer (h : Handle) (l : list (Handle * Z)) : list (Handle * Z) :=
  filter (fun t => negb (Nat.eqb (fst t) h)) l.

Definition has_timer (h : Handle) (l : list (Handle * Z)) : bool :=
  existsb (fun t => Nat.eqb (fst t) h) l.

(** Modelled from the spec: [async_call_later(hass, delay, action)] of the
    timer facility registers a new pending timer; the handle stands for the
    cancel function it returns. *)
Definition async_call_later (delay : Z) : M Handle :=
  fun s =>
    let w := hass s in
    let h := next_handle w in
    (Ok h, mkSys (self s)
             (set_next_handle (S h) (set_timers (timers w ++ [(h, delay)]) w))).

(** Modelled from the spec: calling the cancel function of a timer drops
    the timer; it is idempotent. *)
Definition cancel_timer (h : Handle) : M unit :=
  modify_hass (fun w => set_timers (drop_timer h (timers w)) w).

(** Modelled from the spec:
    [hass.bus.async_listen_once(EVENT_HOMEASSISTANT_STOP, listener)] of the
    shutdown-event facility registers a listener and returns its cancel
    function. *)
Definition async_listen_once : M Handle :=
  fun s =>
    let w := hass s in
    let h := next_handle w in
    (Ok h, mkSys (self s)
             (set_next_handle (S h)
                (set_stop_listeners (stop_listeners w ++ [h]) w))).

(** Modelled from the spec: calling the cancel function of a listener
    unregisters it. *)
Definition remove_listener (h : Handle) : M unit :=
  modify_hass (fun w => set_stop_listeners (drop_handle h (stop_listeners w)) w).

(** ** [class Store] *)

(** The one overridable method of the class. *)
Class StoreClass : Type := {
  _async_migrate_func : Json -> Json -> M Json
}.

(** [Store._async_migrate_func] of the base class (lines 157-159). *)
Definition Store_async_migrate_func (old_version old_data : Json) : M Json :=
  raise NotImplementedError.

Definition BaseStore : StoreClass :=
  {| _async_migrate_func := Store_async_migrate_func |}.

(** [Store.path] *)
Definition path (st : Store) : string := config_path STORAGE_DIR (key st).

(** The part of [async_load] after the record is at hand (lines 77-80). *)
Definition load_record {cls : StoreClass} (data : Json) : M Json :=
  st <- get_self ;;
  v <- lift (getitem data "version") ;;
  if py_eq_int v (version st) then
    lift (getitem data "data")
  else
    old_version <- lift (getitem data "version") ;;
    old_data <- lift (getitem data "data") ;;
    _async_migrate_func old_version old_data.

(** [Store.async_load] (lines 62-80) *)
Definition async_load {cls : StoreClass} : M Json :=
  st <- get_self ;;
  if negb (is_None (_data st)) then
    load_record (_data st)
  else
    data <- async_add_executor_job (JobLoadJson (path st))
              (fun w => (json_load_json (path st) (Some JNull) (fs w), w)) ;;
    if is_None data then ret (JDict []) else load_record data.

(** [Store._async_cleanup_stop_listener] (lines 110-114) *)
Definition _async_cleanup_stop_listener : M unit :=
  st <- get_self ;;
  match _unsub_stop_listener st with
  | Some h =>
      remove_listener h ;;
      modify_self (set_unsub_stop_listener None)
  | None => ret tt
  end.

(** [Store._async_cleanup_delay_listener] (lines 117-121) *)
Definition _async_cleanup_delay_listener : M unit :=
  st <- get_self ;;
  match _unsub_delay_listener st with
  | Some h =>
      cancel_timer h ;;
      modify_self (set_unsub_delay_listener None)
  | None => ret tt
  end.

(** [Store._async_ensure_stop_listener] (lines 103-107) *)
Definition _async_ensure_stop_listener : M unit :=
  st <- get_self ;;
  match _unsub_stop_listener st with
  | None =>
      h <- async_listen_once ;;
      modify_self (set_unsub_stop_listener (Some h))
  | Some _ => ret tt
  end.

(** [Store._write_data] (lines 149-155), the body of the executor job. *)
Definition _write_data (st : Store) (path : string) (data : Json)
    (w : Hass) : Outcome unit * Hass :=
  let dir := os_path_dirname path in
  let (r, fs1) :=
    if negb (os_path_isdir dir (fs w)) then os_makedirs dir (fs w)
    else (Ok tt, fs w) in
  match r with
  | Ok _ =>
      let w1 := add_log (LogDebug (key st)) (set_fs fs1 w) in
      let (r2, fs2) := json_save_json path data (fs w1) in
      (r2, set_fs fs2 w1)
  | Raise e => (Raise e, set_fs fs1 w)
  | Blocked => (Blocked, set_fs fs1 w)
  end.

(** [async with self._write_lock: body]: a held lock makes the coroutine
    wait; the lock is released when the body returns or raises. *)
Definition async_with_write_lock {A} (body : M A) : M A :=
  fun s =>
    if _write_lock (self s) then (Blocked, s)
    else
      match body (mkSys (set_write_lock true (self s)) (hass s)) with
      | (Blocked, s') => (Blocked, s')
      | (r, s') => (r, mkSys (set_write_lock false (self s')) (hass s'))
      end.

(** [try: body except SerializationError/WriteError as err: handler err] *)
Definition try_except_write {A} (body : M A) (handler : Exn -> M A) : M A :=
  fun s =>
    match body s with
    | (Raise SerializationError, s') => handler SerializationError s'
    | (Raise WriteError, s') => handler WriteError s'
    | r => r
    end.

(** [Store._handle_write_data] (lines 135-147) *)
Definition _handle_write_data : M unit :=
  st <- get_self ;;
  let data := _data st in
  modify_self (set_data JNull) ;;
  async_with_write_lock
    (try_except_write
       (st' <- get_self ;;
        async_add_executor_job (JobWriteData (path st') data)
          (_write_data st' (path st') data))
       (fun err =>
          st' <- get_self ;;
          modify_hass (add_log (LogError (key st') err)))).

(** [Store._async_callback_delayed_write] (lines 123-127) *)
Definition _async_callback_delayed_write : M unit :=
  modify_self (set_unsub_delay_listener None) ;;
  _async_cleanup_stop_listener ;;
  _handle_write_data.

(** [Store._async_callback_stop_write] (lines 129-133) *)
Definition _async_callback_stop_write : M unit :=
  modify_self (set_unsub_stop_listener None) ;;
  _async_cleanup_delay_listener ;;
  _handle_write_data.

(** [Store.async_save] (lines 82-100) *)
Definition async_save (data : Json) (delay : option Z) : M unit :=
  st <- get_self ;;
  modify_self (set_data (record_of st data)) ;;
  _async_cleanup_delay_listener ;;
  match delay with
  | None =>
      _async_cleanup_stop_listener ;;
      _handle_write_data
  | Some d =>
      h <- async_call_later d ;;
      modify_self (set_unsub_delay_listener (Some h)) ;;
      _async_ensure_stop_listener
  end.

(** ** [async_migrator] (lines 18-40) *)

Definition load_old_config (old_path : string) (w : Hass)
    : Outcome Json * Hass :=
  if negb (os_path_isfile old_path (fs w)) then (Ok JNull, w)
  else (json_load_json old_path None (fs w), w).

Definition remove_job (old_path : string) (w : Hass) : Outcome unit * Hass :=
  let (r, fs') := os_remove old_path (fs w) in (r, set_fs fs' w).

Definition async_migrator (old_path : string)
    (old_conf_migrate_func : option (Json -> M Json)) : M Json :=
  config <- async_add_executor_job (JobLoadOldConfig old_path)
              (load_old_config old_path) ;;
  if is_None config then ret JNull
  else
    config <- match old_conf_migrate_func with
              | Some f => f config
              | None => ret config
              end ;;
    async_save config None ;;
    async_add_executor_job (JobRemove old_path) (remove_job old_path) ;;
    ret config.

(** ** Events of the event loop *)

(** Modelled from the spec: a pending timer fires; the timer facility drops
    it and runs the delayed-write callback.  A cancelled timer never fires. *)
Definition fire_timer (h : Handle) : M unit :=
  fun s =>
    if has_timer h (timers (hass s)) then
      (cancel_timer h ;; _async_callback_delayed_write) s
    else (Ok tt, s).

(** Modelled from the spec: the shutdown event; every once-listener that is
    still registered is unregistered and run. *)
Fixpoint fire_listeners (l : list Handle) : M unit :=
  match l with
  | [] => ret tt
  | h :: l' =>
      (fun s =>
         if existsb (Nat.eqb h) (stop_listeners (hass s)) then
           (remove_listener h ;; _async_callback_stop_write) s
         else (Ok tt, s)) ;;
      fire_listeners l'
  end.

Definition fire_stop : M unit :=
  fun s => fire_listeners (stop_listeners (hass s)) s.

(** A run of delayed saves, in order. *)
Fixpoint delayed_saves (l : list (Json * Z)) : M unit :=
  match l with
  | [] => ret tt
  | (data, delay) :: l' => async_save data (Some delay) ;; delayed_saves l'
  end.

(** What can happen to a store: a save, a timer that fires, the shutdown
    event. *)
Inductive Event : Type :=
| Save (data : Json) (delay : option Z)
| TimerFires (h : Handle)
| Shutdown.

Definition step (e : Event) : M unit :=
  match e with
  | Save data delay => async_save data delay
  | TimerFires h => fire_timer h
  | Shutdown => fire_stop
  end.

(** The store owns every subscription of the world and no write is in
    flight: the state between two coroutines of a run. *)
Definition quiet (s : Sys) : Prop :=
  map fst (timers (hass s)) =
    match _unsub_delay_listener (self s) with Some h => [h] | None => [] end
  /\ stop_listeners (hass s) =
    match _unsub_stop_listener (self s) with Some h => [h] | None => [] end
  /\ _write_lock (self s) = false.

(** The timers and listeners left once a handle of the store, if it holds
    one, has been cancelled. *)
Definition timers_without (o : option Handle) (l : list (Handle * Z)) :=
  match o with Some h => drop_timer h l | None => l end.

Definition listeners_without (o : option Handle) (l : list Handle) :=
  match o with Some h => drop_handle h l | None => l end.

(** The store with both of its handles forgotten. *)
Definition unsubscribed (d : Json) (st : Store) : Store :=
  mkStore (version st) (key st) d None None (_write_lock st).

(** The state in which the write attempt of an immediate save starts: the
    record is buffered and both subscriptions are cancelled. *)
Definition immediate_start (s : Sys) (data : Json) : Sys :=
  mkSys (unsubscribed (record_of (self s) data) (self s))
        (set_stop_listeners
           (listeners_without (_unsub_stop_listener (self s))
              (stop_listeners (hass s)))
           (set_timers
              (timers_without (_unsub_delay_listener (self s))
                 (timers (hass s)))
              (hass s))).

(** The state a delayed save leaves: the record is buffered, the old timer
    is cancelled and a new one is pending, and a shutdown listener is
    registered if none was. *)
Definition delayed_state (s : Sys) (data : Json) (delay : Z) : Sys :=
  let n := next_handle (hass s) in
  let us := _unsub_stop_listener (self s) in
  mkSys (mkStore (version (self s)) (key (self s)) (record_of (self s) data)
           (Some n)
           (match us with Some h => Some h | None => Some (S n) end)
           (_write_lock (self s)))
        (mkHass (fs (hass s))
           (timers_without (_unsub_delay_listener (self s)) (timers (hass s))
              ++ [(n, delay)])
           (match us with
            | Some _ => stop_listeners (hass s)
            | None => stop_listeners (hass s) ++ [S n]
            end)
           (match us with Some _ => S n | None => S (S n) end)
           (log (hass s)) (jobs (hass s))).

(** The state in which the write attempt of a trigger starts when the store
    held the only timer and the only listener: nothing is subscribed any
    more. *)
Definition triggered (s : Sys) : Sys :=
  mkSys (unsubscribed (_data (self s)) (self s))
        (set_stop_listeners [] (set_timers [] (hass s))).

(** The store holds one pending timer [n] and one shutdown listener [h],
    and no write is in flight. *)
Definition armed (s : Sys) (n : Handle) (d : Z) (h : Handle) : Prop :=
  timers (hass s) = [(n, d)] /\ stop_listeners (hass s) = [h] /\
  _unsub_delay_listener (self s) = Some n /\
  _unsub_stop_listener (self s) = Some h /\
  _write_lock (self s) = false.

(** What a run of delayed saves keeps: the disk, the job trace, the log and
    the identity of the store. *)
Definition untouched (s s' : Sys) : Prop :=
  fs (hass s') = fs (hass s) /\ jobs (hass s') = jobs (hass s) /\
  log (hass s') = log (hass s) /\
  version (self s') = version (self s) /\ key (self s') = key (self s).

(** The state [async_migrator] is in once it has looked at the legacy file:
    only the job is new. *)
Definition after_legacy_read (s : Sys) (old_path : string) : Sys :=
  mkSys (self s) (add_job (JobLoadOldConfig old_path) (seen s) (hass s)).

(** The optional [old_conf_migrate_func] applied to the legacy content. *)
Definition transformed (f : option (Json -> M Json)) (config : Json)
    : M Json :=
  match f with
  | Some g => g config
  | None => ret config
  end.

(** The state a load leaves when it has read the storage. *)
Definition after_read (s : Sys) : Sys :=
  mkSys (self s) (add_job (JobLoadJson (path (self s))) (seen s) (hass s)).

(** The state in which the writer's job runs: the buffer is already empty
    and the lock is held. *)
Definition writing (s : Sys) : Sys :=
  mkSys (set_write_lock true (set_data JNull (self s))) (hass s).

(** The writer's job of a write attempt started in [s]. *)
Definition write_job (s : Sys) : Outcome unit * Hass :=
  _write_data (self (writing s)) (path (self s)) (_data (self s))
    (add_job (JobWriteData (path (self s)) (_data (self s)))
             (seen (writing s)) (hass s)).

(** ** Runs of events *)

(** A run of events on a store, one coroutine after the other; an
    exception of one event does not stop the next ones, and there is no
    state to go on from when an event is left waiting. *)
Fixpoint run (l : list Event) (s : Sys) : option Sys :=
  match l with
  | [] => Some s
  | e :: l' =>
      match step e s with
      | (Blocked, _) => None
      | (_, s') => run l' s'
      end
  end.

(** The payloads of the saves of a run. *)
Fixpoint saved_payloads (l : list Event) : list Json :=
  match l with
  | [] => []
  | Save data _ :: l' => data :: saved_payloads l'
  | _ :: l' => saved_payloads l'
  end.

(** The two states of the store between events (section 4.3): nothing
    buffered and nothing subscribed, or a record buffered with one timer
    and one shutdown listener. *)
Definition Idle (s : Sys) : Prop :=
  _data (self s) = JNull /\
  _unsub_delay_listener (self s) = None /\
  _unsub_stop_listener (self s) = None /\
  timers (hass s) = [] /\ stop_listeners (hass s) = [] /\
  _write_lock (self s) = false.

Definition Pending (s : Sys) (P : Json) : Prop :=
  _data (self s) = record_of (self s) P /\
  exists n d h, armed s n d h.

(** A job of the writer on the record of one of the payloads [pl], at the
    path of the store of version [v] and key [k]. *)
Definition stored_in (v : Z) (k : string) (pl : list Json)
    (jv : Job * Seen) : Prop :=
  exists P, In P pl /\
    fst jv = JobWriteData (config_path STORAGE_DIR k)
               (record_of (Store_init v k) P).

(** What every event of a run keeps. *)
Definition run_inv (v : Z) (k : string) (j0 : list (Job * Seen))
    (pl : list Json) (s : Sys) : Prop :=
  version (self s) = v /\ key (self s) = k /\
  (Idle s \/ exists P, In P pl /\ Pending s P) /\
  exists added, jobs (hass s) = j0 ++ added /\ Forall (stored_in v k pl) added.

End Storage.

Notation "x <- m ;; f" := (bind m (fun x => f))
  (at level 61, m at next level, right associativity).
Notation "m ;; f" := (bind m (fun _ => f))
  (at level 61, right associativity).

Arguments Hass {os}.
Arguments Sys {os}.
Arguments StoreClass {os}.

(** ** A small concrete platform

    Files hold JSON values, directories are names, and a full disk makes
    every write fail.  It serves to run the module on concrete inputs. *)

Module Toy.

Record ToyFS : Type := mkToyFS {
  files : list (string * Json);
  dirs : list string;
  disk_full : bool
}.

Fixpoint drop_file (p : string) (l : list (string * Json))
    : list (string * Json) :=
  match l with
  | [] => []
  | (q, v) :: l' =>
      if String.eqb p q then drop_file p l' else (q, v) :: drop_file p l'
  end.

(** The part of [p] before its last slash, if it has one. *)
Fixpoint before_last_slash (p : string) : option string :=
  match p with
  | EmptyString => None
  | String c p' =>
      match before_last_slash p' with
      | Some d => Some (String c d)
      | None => if Ascii.eqb c "/"%char then Some EmptyString else None
      end
  end.

Definition dirname (p : string) : string :=
  match before_last_slash p with Some d => d | None => EmptyString end.

Definition isfile (p : string) (x : ToyFS) : bool :=
  match assoc p (files x) with Some _ => true | None => false end.

Definition isdir (p : string) (x : ToyFS) : bool :=
  existsb (String.eqb p) (dirs x).

Definition makedirs (p : string) (x : ToyFS) : Outcome unit * ToyFS :=
  if disk_full x then (Raise OSError, x)
  else (Ok tt, mkToyFS (files x) (p :: dirs x) false).

Definition remove (p : string) (x : ToyFS) : Outcome unit * ToyFS :=
  if isfile p x then (Ok tt, mkToyFS (drop_file p (files x)) (dirs x) (disk_full x))
  else (Raise OSError, x).

Definition load_json (p : string) (default : option Json) (x : ToyFS)
    : Outcome Json :=
  match assoc p (files x) with
  | Some v => Ok v
  | None => Ok (match default with Some d => d | None => JDict [] end)
  end.

Definition save_json (p : string) (data : Json) (x : ToyFS)
    : Outcome unit * ToyFS :=
  if disk_full x then (Raise WriteError, x)
  else (Ok tt, mkToyFS ((p, data) :: drop_file p (files x)) (dirs x) false).

#[export] Instance os : OS := {|
  FS := ToyFS;
  os_path_isfile := isfile;
  os_path_isdir := isdir;
  os_path_dirname := dirname;
  os_makedirs := makedirs;
  os_remove := remove;
  json_load_json := load_json;
  json_save_json := save_json;
  config_path := fun dir key => ("/config/" ++ dir ++ "/" ++ key)%string
|}.

Definition boot (x : ToyFS) : Hass := mkHass (x : FS) [] [] 0%nat [] [].

(** [Store(hass, 1, 'settings')] on a world that just started. *)
Definition sys (x : ToyFS) : Sys := mkSys (Store_init 1 "settings") (boot x).

(** The same store with a payload buffered and no trigger armed. *)
Definition pending (x : ToyFS) : Sys :=
  mkSys (set_data (record_of (Store_init 1 "settings")
                     (JDict [("theme", JStr "dark")]))
           (Store_init 1 "settings"))
        (boot x).

Definition dark : Json := JDict [("theme", JStr "dark")].
Definition light : Json := JDict [("theme", JStr "light")].

Definition settings_path : string := "/config/.storage/settings".
Definition legacy_path : string := "/config/settings.json".

Definition empty_disk : ToyFS := mkToyFS [] [] false.

(** The storage directory exists and the disk is full. *)
Definition full_disk : ToyFS := mkToyFS [] ["/config/.storage"] true.

(** A record of version 1 is on disk. *)
Definition disk_v1 : ToyFS :=
  mkToyFS [(settings_path,
            JDict [("version", JInt 1); ("key", JStr "settings");
                   ("data", dark)])]
          ["/config/.storage"] false.

(** Stored dictionaries that miss a field. *)
Definition disk_no_version : ToyFS :=
  mkToyFS [(settings_path, JDict [("key", JStr "settings"); ("data", dark)])]
          ["/config/.storage"] false.

Definition disk_no_data : ToyFS :=
  mkToyFS [(settings_path, JDict [("version", JInt 1); ("key", JStr "settings")])]
          ["/config/.storage"] false.

(** The disk is full and the storage directory is missing. *)
Definition full_disk_no_dir : ToyFS := mkToyFS [] [] true.

Definition legacy_disk (content : Json) (full : bool) : ToyFS :=
  mkToyFS [(legacy_path, content)] ["/config/.storage"] full.

(** A legacy file on a full disk that lacks the storage directory. *)
Definition legacy_full_no_dir (content : Json) : ToyFS :=
  mkToyFS [(legacy_path, content)] [] true.

(** A store class of version 2 whose migration renames the theme. *)
Definition ThemeStore : StoreClass :=
  {| _async_migrate_func := fun old_version old_data =>
       bind (lift (getitem old_data "theme"))
            (fun t => ret (JDict [("theme_v2", t)])) |}.

Definition sys_v2 (x : ToyFS) : Sys := mkSys (Store_init 2 "settings") (boot x).

End Toy.

(** * Properties *)

Section Writer.

Context {os : OS}.

(** ** The writer *)

(** The outcome of [_write_data] and the file system it leaves depend on
    the file system it starts from only; the rest of the world is kept,
    and the log grows. *)
Lemma write_data_fs (st st' : Store) (p : string) (d : Json) (w w' : Hass) :
  fs w = fs w' ->
  fst (_write_data st p d w) = fst (_write_data st' p d w') /\
  fs (snd (_write_data st p d w)) = fs (snd (_write_data st' p d w')).
Proof.
  intros E. unfold _write_data. rewrite <- E.
  destruct (negb (os_path_isdir (os_path_dirname p) (fs w))).
  - destruct (os_makedirs (os_path_dirname p) (fs w)) as [[u|e|] x]; cbn.
    + destruct (json_save_json p d x) as [r2 x2]; cbn. auto.
    + auto.
    + auto.
  - cbn. destruct (json_save_json p d (fs w)) as [r2 x2]; cbn. auto.
Qed.

Lemma write_data_frame (st : Store) (p : string) (d : Json) (w : Hass) :
  let w' := snd (_write_data st p d w) in
  timers w' = timers w /\ stop_listeners w' = stop_listeners w /\
  next_handle w' = next_handle w /\ jobs w' = jobs w.
Proof.
  unfold _write_data.
  destruct (negb (os_path_isdir (os_path_dirname p) (fs w))).
  - destruct (os_makedirs (os_path_dirname p) (fs w)) as [[u|e|] x]; cbn;
      try (destruct (json_save_json p d x) as [r2 x2]; cbn); auto.
  - cbn. destruct (json_save_json p d (fs w)) as [r2 x2]; cbn. auto.
Qed.

(** The writer through the platform: with the storage directory in place
    it is [json.save_json] on the disk at hand; with the directory missing
    and created without error, it is [json.save_json] on the disk
    [os.makedirs] left. *)
Lemma write_data_disk (st : Store) (p : string) (d : Json) (w : Hass) :
  (os_path_isdir (os_path_dirname p) (fs w) = true ->
   fst (_write_data st p d w) = fst (json_save_json p d (fs w)) /\
   fs (snd (_write_data st p d w)) = snd (json_save_json p d (fs w))) /\
  (os_path_isdir (os_path_dirname p) (fs w) = false ->
   fst (os_makedirs (os_path_dirname p) (fs w)) = Ok tt ->
   fst (_write_data st p d w) =
     fst (json_save_json p d (snd (os_makedirs (os_path_dirname p) (fs w))))
   /\
   fs (snd (_write_data st p d w)) =
     snd (json_save_json p d (snd (os_makedirs (os_path_dirname p) (fs w))))).
Proof.
  unfold _write_data. split.
  - intros D. rewrite D. cbn.
    destruct (json_save_json p d (fs w)) as [r x]. cbn. auto.
  - intros D M. rewrite D. cbn [negb].
    destruct (os_makedirs (os_path_dirname p) (fs w)) as [r x].
    cbn in M. subst r. cbn.
    destruct (json_save_json p d x) as [r2 x2]. cbn. auto.
Qed.

(** What [_handle_write_data] does, by the outcome of the writer's job. *)
Lemma handle_write_data_eq (s : Sys) :
  _write_lock (self s) = false ->
  _handle_write_data s =
    match fst (write_job s) with
    | Ok _ => (Ok tt, mkSys (set_data JNull (self s)) (snd (write_job s)))
    | Raise SerializationError =>
        (Ok tt, mkSys (set_data JNull (self s))
                  (add_log (LogError (key (self s)) SerializationError)
                           (snd (write_job s))))
    | Raise WriteError =>
        (Ok tt, mkSys (set_data JNull (self s))
                  (add_log (LogError (key (self s)) WriteError)
                           (snd (write_job s))))
    | Raise e => (Raise e, mkSys (set_data JNull (self s)) (snd (write_job s)))
    | Blocked => (Blocked, mkSys (self (writing s)) (snd (write_job s)))
    end.
Proof.
  intros L. destruct s as [st w].
  unfold _handle_write_data, write_job, writing, bind, get_self, modify_self,
    async_with_write_lock, try_except_write, async_add_executor_job,
    modify_hass, seen, path.
  cbn in L |- *. rewrite L. cbn.
  match goal with |- context [_write_data ?a ?b ?c ?d] =>
    destruct (_write_data a b c d) as [[u|e|] w'] end; cbn.
  - destruct u. unfold set_write_lock, set_data; cbn. rewrite <- L.
    reflexivity.
  - destruct e; cbn; unfold set_write_lock, set_data; cbn; rewrite <- L;
      reflexivity.
  - reflexivity.
Qed.

Lemma write_job_frame (s : Sys) :
  timers (snd (write_job s)) = timers (hass s) /\
  stop_listeners (snd (write_job s)) = stop_listeners (hass s) /\
  next_handle (snd (write_job s)) = next_handle (hass s) /\
  jobs (snd (write_job s)) =
    jobs (hass s)
      ++ [(JobWriteData (path (self s)) (_data (self s)), seen (writing s))].
Proof.
  unfold write_job.
  match goal with |- context [_write_data ?a ?b ?c ?d] =>
    destruct (write_data_frame a b c d) as (T & L & N & J) end.
  rewrite T, L, N, J. cbn. auto.
Qed.

(** The outcome of the writer's job is the outcome of [_write_data] on the
    file system at hand. *)
Lemma write_job_outcome (s : Sys) (st : Store) (w : Hass) :
  fs w = fs (hass s) ->
  fst (write_job s) = fst (_write_data st (path (self s)) (_data (self s)) w) /\
  fs (snd (write_job s)) =
    fs (snd (_write_data st (path (self s)) (_data (self s)) w)).
Proof.
  intros E. unfold write_job. apply write_data_fs. cbn. symmetry. exact E.
Qed.

(** A write attempt leaves the buffer empty, whatever its outcome. *)
Lemma handle_write_data_buffer (s : Sys) :
  _data (self (snd (_handle_write_data s))) = JNull.
Proof.
  destruct (_write_lock (self s)) eqn:L.
  - destruct s as [st w].
    unfold _handle_write_data, bind, get_self, modify_self,
      async_with_write_lock.
    cbn in L |- *. rewrite L. reflexivity.
  - rewrite (handle_write_data_eq s L).
    destruct (fst (write_job s)) as [u|e|]; [| destruct e |]; reflexivity.
Qed.

(** A write attempt runs one job of the writer, on the payload that was
    buffered, and touches no subscription. *)
Lemma handle_write_data_frame (s : Sys) :
  _write_lock (self s) = false ->
  let s' := snd (_handle_write_data s) in
  timers (hass s') = timers (hass s) /\
  stop_listeners (hass s') = stop_listeners (hass s) /\
  next_handle (hass s') = next_handle (hass s) /\
  jobs (hass s') =
    jobs (hass s)
      ++ [(JobWriteData (path (self s)) (_data (self s)), seen (writing s))] /\
  fs (hass s') = fs (snd (write_job s)).
Proof.
  intros L. cbn zeta. rewrite (handle_write_data_eq s L).
  destruct (write_job_frame s) as (T & S & N & J).
  destruct (fst (write_job s)) as [u|e|]; [| destruct e |]; cbn;
    rewrite ?T, ?S, ?N, ?J; auto.
Qed.

(** Unless it blocks, a write attempt changes the buffer of the store
    only, and its outcome is the writer's with the two write errors
    turned into a normal return. *)
Lemma handle_write_data_self (s : Sys) :
  _write_lock (self s) = false ->
  fst (write_job s) <> Blocked ->
  self (snd (_handle_write_data s)) = set_data JNull (self s).
Proof.
  intros L B. rewrite (handle_write_data_eq s L).
  destruct (fst (write_job s)) as [u|e|]; [| destruct e |]; cbn; congruence.
Qed.

Lemma handle_write_data_outcome (s : Sys) :
  _write_lock (self s) = false ->
  fst (_handle_write_data s) =
    match fst (write_job s) with
    | Raise SerializationError | Raise WriteError => Ok tt
    | r => r
    end.
Proof.
  intros L. rewrite (handle_write_data_eq s L).
  destruct (fst (write_job s)) as [[]|e|]; [| destruct e |]; reflexivity.
Qed.

(** A write attempt keeps the version and the key of the store. *)
Lemma handle_write_data_identity (s : Sys) :
  version (self (snd (_handle_write_data s))) = version (self s) /\
  key (self (snd (_handle_write_data s))) = key (self s).
Proof.
  destruct (_write_lock (self s)) eqn:L.
  - destruct s as [st w].
    unfold _handle_write_data, bind, get_self, modify_self,
      async_with_write_lock.
    cbn in L |- *. rewrite L. cbn. auto.
  - rewrite (handle_write_data_eq s L).
    destruct (fst (write_job s)) as [u|e|]; [| destruct e |]; cbn; auto.
Qed.

(** ** Subscriptions *)

Lemma drop_timer_single (h : Handle) (l : list (Handle * Z)) :
  map fst l = [h] -> drop_timer h l = [].
Proof.
  destruct l as [|[h' d] [|t l]]; cbn; try discriminate.
  intros E. injection E as ->. now rewrite Nat.eqb_refl.
Qed.

Lemma drop_handle_single (h : Handle) : drop_handle h [h] = [].
Proof. cbn. now rewrite Nat.eqb_refl. Qed.

Lemma has_timer_single (h : Handle) (l : list (Handle * Z)) :
  map fst l = [h] -> has_timer h l = true.
Proof.
  destruct l as [|[h' d] [|t l]]; cbn; try discriminate.
  intros E. injection E as ->. now rewrite Nat.eqb_refl.
Qed.

Lemma quiet_timers_without (s : Sys) :
  quiet s ->
  timers_without (_unsub_delay_listener (self s)) (timers (hass s)) = [].
Proof.
  intros (T & _ & _). unfold timers_without.
  destruct (_unsub_delay_listener (self s)).
  - now apply drop_timer_single.
  - now destruct (timers (hass s)).
Qed.

Lemma quiet_listeners_without (s : Sys) :
  quiet s ->
  listeners_without (_unsub_stop_listener (self s)) (stop_listeners (hass s))
    = [].
Proof.
  intros (_ & S & _). unfold listeners_without. rewrite S.
  destruct (_unsub_stop_listener (self s)).
  - apply drop_handle_single.
  - reflexivity.
Qed.

(** ** Immediate save *)

(** An immediate save is a write attempt on the state in which the record
    is buffered and both subscriptions of the store are cancelled. *)
Lemma async_save_immediate (s : Sys) (data : Json) :
  async_save data None s = _handle_write_data (immediate_start s data).
Proof.
  destruct s as [[v k d ud us l] [x t sl n lg j]].
  unfold async_save, bind, get_self, modify_self,
    _async_cleanup_delay_listener, _async_cleanup_stop_listener,
    cancel_timer, remove_listener, modify_hass, ret, immediate_start.
  cbn. destruct ud, us; reflexivity.
Qed.

(** The write job of an immediate save is the writer run on the record, on
    the file system at hand. *)
Lemma immediate_write_job (s : Sys) (data : Json) :
  fst (write_job (immediate_start s data)) =
    fst (_write_data (self s) (path (self s)) (record_of (self s) data)
           (hass s)) /\
  fs (snd (write_job (immediate_start s data))) =
    fs (snd (_write_data (self s) (path (self s)) (record_of (self s) data)
               (hass s))).
Proof.
  apply (write_job_outcome (immediate_start s data) (self s) (hass s)).
  reflexivity.
Qed.

(** C1 (as amended). An immediate save returns only after its write
    attempt, and a SerializationError or WriteError of the writer does not
    reach the caller: the save returns normally, the writer's job is in the
    trace with the record, and the error is the last record of the log. *)
Theorem immediate_save_logs_write_error (s : Sys) (data : Json) (e : Exn) :
  _write_lock (self s) = false ->
  e = SerializationError \/ e = WriteError ->
  fst (_write_data (self s) (path (self s)) (record_of (self s) data)
         (hass s)) = Raise e ->
  fst (async_save data None s) = Ok tt /\
  (exists v,
     jobs (hass (snd (async_save data None s))) =
       jobs (hass s)
         ++ [(JobWriteData (path (self s)) (record_of (self s) data), v)]) /\
  (exists l,
     log (hass (snd (async_save data None s))) =
       l ++ [LogError (key (self s)) e]).
Proof.
  intros L He Hw. rewrite async_save_immediate.
  assert (L1 : _write_lock (self (immediate_start s data)) = false)
    by exact L.
  destruct (immediate_write_job s data) as (Ho & _). rewrite Hw in Ho.
  split; [| split].
  - rewrite (handle_write_data_outcome _ L1), Ho.
    destruct He as [-> | ->]; reflexivity.
  - destruct (handle_write_data_frame _ L1) as (_ & _ & _ & J & _).
    eexists. rewrite J. reflexivity.
  - rewrite (handle_write_data_eq _ L1), Ho.
    destruct He as [-> | ->]; cbn; eexists; reflexivity.
Qed.

End Writer.

Lemma immediate_save_logs_write_error_witness :
  fst (async_save Toy.dark None (Toy.sys Toy.full_disk)) = Ok tt /\
  (exists v,
     jobs (hass (snd (async_save Toy.dark None (Toy.sys Toy.full_disk)))) =
       jobs (hass (Toy.sys Toy.full_disk))
         ++ [(JobWriteData Toy.settings_path
                (record_of (self (Toy.sys Toy.full_disk)) Toy.dark), v)]) /\
  (exists l,
     log (hass (snd (async_save Toy.dark None (Toy.sys Toy.full_disk)))) =
       l ++ [LogError (key (self (Toy.sys Toy.full_disk))) WriteError]).
Proof.
  apply (immediate_save_logs_write_error (Toy.sys Toy.full_disk) Toy.dark
           (e := WriteError)).
  - reflexivity.
  - right. reflexivity.
  - reflexivity.
Defined.

(** C1 (as stated) fails: on a full disk the writer raises WriteError, and
    the immediate save returns normally instead of raising it. *)
Lemma immediate_save_hides_write_error :
  fst (_write_data (self (Toy.sys Toy.full_disk)) Toy.settings_path
         (record_of (self (Toy.sys Toy.full_disk)) Toy.dark)
         (hass (Toy.sys Toy.full_disk))) = Raise WriteError /\
  fst (async_save Toy.dark None (Toy.sys Toy.full_disk)) = Ok tt /\
  fst (async_save Toy.dark None (Toy.sys Toy.full_disk)) <> Raise WriteError.
Proof.
  split; [reflexivity | split; [reflexivity | discriminate]].
Qed.

(** ** The write attempt and the buffer *)

Section WriteAttempt.

Context {os : OS}.

Lemma handle_write_data_blocked (s : Sys) :
  _write_lock (self s) = false ->
  fst (_handle_write_data s) <> Blocked ->
  fst (write_job s) <> Blocked.
Proof.
  intros L B E. apply B. rewrite (handle_write_data_outcome s L), E.
  reflexivity.
Qed.

(** C6. A write attempt empties the buffer before the writer runs: the
    writer's job gets the payload that was buffered and sees an empty
    buffer; the buffer is empty after the attempt whatever its outcome; a
    further attempt without a new save hands None to the writer, and a new
    save hands its own record to it. *)
Theorem write_attempt_consumes_payload (s : Sys) :
  _write_lock (self s) = false ->
  let s' := snd (_handle_write_data s) in
  (exists v,
     jobs (hass s') =
       jobs (hass s) ++ [(JobWriteData (path (self s)) (_data (self s)), v)]
     /\ _data (seen_store v) = JNull) /\
  _data (self s') = JNull /\
  (fst (_handle_write_data s) <> Blocked ->
   (exists v,
      jobs (hass (snd (_handle_write_data s'))) =
        jobs (hass s') ++ [(JobWriteData (path (self s)) JNull, v)]) /\
   (forall data, exists v,
      jobs (hass (snd (async_save data None s'))) =
        jobs (hass s')
          ++ [(JobWriteData (path (self s)) (record_of (self s) data), v)])).
Proof.
  intros L s'. split; [| split].
  - destruct (handle_write_data_frame s L) as (_ & _ & _ & J & _).
    exists (seen (writing s)). split; [exact J | reflexivity].
  - apply handle_write_data_buffer.
  - intros B.
    pose proof (handle_write_data_self s L (handle_write_data_blocked s L B))
      as E.
    fold s' in E.
    assert (L' : _write_lock (self s') = false) by (rewrite E; exact L).
    split.
    + destruct (handle_write_data_frame s' L') as (_ & _ & _ & J & _).
      eexists. rewrite J, E. reflexivity.
    + intros data. rewrite async_save_immediate.
      assert (L2 : _write_lock (self (immediate_start s' data)) = false)
        by exact L'.
      destruct (handle_write_data_frame _ L2) as (_ & _ & _ & J & _).
      eexists. rewrite J. cbn. rewrite E. reflexivity.
Qed.

End WriteAttempt.

Lemma write_attempt_consumes_payload_witness :
  _data (self (snd (_handle_write_data (Toy.pending Toy.full_disk)))) = JNull.
Proof.
  exact (proj1 (proj2
    (write_attempt_consumes_payload (Toy.pending Toy.full_disk) eq_refl))).
Defined.

(** ** Load *)

Section Loading.

Context {os : OS} {cls : StoreClass}.

Lemma async_save_delayed (s : Sys) (data : Json) (d : Z) :
  async_save data (Some d) s = (Ok tt, delayed_state s data d).
Proof.
  destruct s as [[v k dt ud us l] [x t sl n lg j]].
  unfold async_save, bind, get_self, modify_self,
    _async_cleanup_delay_listener, _async_ensure_stop_listener,
    async_call_later, async_listen_once, cancel_timer, modify_hass, ret,
    delayed_state.
  cbn. destruct ud, us; reflexivity.
Qed.

(** A load that finds a record of the store's own version in the buffer
    returns its payload and leaves the whole state as it is. *)
Lemma load_buffered (s : Sys) (st : Store) (P : Json) :
  _data (self s) = record_of st P ->
  version st = version (self s) ->
  async_load s = (Ok P, s).
Proof.
  intros D V. unfold async_load, bind, get_self. rewrite D. cbn.
  unfold load_record, bind, get_self, lift. cbn.
  rewrite V, Z.eqb_refl. reflexivity.
Qed.

(** A load with an empty buffer that reads a record from storage goes on
    with that record. *)
Lemma load_reads (s : Sys) (rec : Json) :
  _data (self s) = JNull ->
  json_load_json (path (self s)) (Some JNull) (fs (hass s)) = Ok rec ->
  is_None rec = false ->
  async_load s = load_record rec (after_read s).
Proof.
  intros D R N. unfold async_load, bind, get_self. rewrite D. cbn.
  unfold async_add_executor_job. cbn. rewrite R, N. reflexivity.
Qed.

(** The record of the store's own version yields its payload. *)
Lemma load_record_own (s : Sys) (st : Store) (P : Json) :
  version st = version (self s) ->
  load_record (record_of st P) s = (Ok P, s).
Proof.
  intros V. unfold load_record, bind, get_self, lift. cbn.
  rewrite V, Z.eqb_refl. reflexivity.
Qed.

(** A load that reads back from storage the record of a payload, the buffer
    being empty, returns the payload after its one read. *)
Lemma load_reads_back (s : Sys) (st : Store) (P : Json) :
  _data (self s) = JNull ->
  version st = version (self s) ->
  json_load_json (path (self s)) (Some JNull) (fs (hass s)) =
    Ok (record_of st P) ->
  async_load s = (Ok P, after_read s).
Proof.
  intros D V R. rewrite (load_reads s D R eq_refl).
  now apply load_record_own.
Qed.

(** On a version mismatch the rest of the load is the call of the
    migration function on the stored version and data. *)
Lemma load_mismatch (s : Sys) (rec v d : Json) :
  _data (self s) = JNull ->
  json_load_json (path (self s)) (Some JNull) (fs (hass s)) = Ok rec ->
  is_None rec = false ->
  getitem rec "version" = Ok v ->
  py_eq_int v (version (self s)) = false ->
  getitem rec "data" = Ok d ->
  async_load s = _async_migrate_func v d (after_read s).
Proof.
  intros D R N Hv Hne Hd.
  rewrite (load_reads s D R N).
  unfold load_record, bind, get_self, lift. rewrite Hv. cbn.
  rewrite Hne, Hd. reflexivity.
Qed.

(** C2 (as amended). With an empty buffer and a stored record whose version
    differs from the store's, load calls the migration function with the
    stored version and the stored data, on the store as it was before the
    load; the outcome of that call and the state it leaves are those of the
    load, which stores nothing itself. *)
Theorem load_migrates_on_version_mismatch (s : Sys) (rec v d : Json) :
  _data (self s) = JNull ->
  json_load_json (path (self s)) (Some JNull) (fs (hass s)) = Ok rec ->
  is_None rec = false ->
  getitem rec "version" = Ok v ->
  py_eq_int v (version (self s)) = false ->
  getitem rec "data" = Ok d ->
  async_load s = _async_migrate_func v d (after_read s) /\
  self (after_read s) = self s.
Proof.
  intros D R N Hv Hne Hd. split; [| reflexivity].
  now apply load_mismatch with (rec := rec).
Qed.

(** C10. With an empty buffer and a stored dictionary without 'version',
    or with a matching 'version' and without 'data', load raises the
    KeyError of the missing key: neither the empty payload nor one of the
    errors of the storage layer. *)
Theorem load_raises_key_error (s : Sys) (d : list (string * Json)) :
  _data (self s) = JNull ->
  json_load_json (path (self s)) (Some JNull) (fs (hass s)) = Ok (JDict d) ->
  (assoc "version" d = None ->
   async_load s = (Raise (KeyError "version"), after_read s)) /\
  (forall v,
     assoc "version" d = Some v ->
     py_eq_int v (version (self s)) = true ->
     assoc "data" d = None ->
     async_load s = (Raise (KeyError "data"), after_read s)).
Proof.
  intros D R. rewrite (load_reads s D R eq_refl). split.
  - intros Hv. unfold load_record, bind, get_self, lift, getitem.
    rewrite Hv. reflexivity.
  - intros v Hv He Hd. unfold load_record, bind, get_self, lift, getitem.
    rewrite Hv. cbn. rewrite He, Hd. reflexivity.
Qed.

(** An immediate save leaves the buffer empty: its own write attempt has
    consumed it. *)
Lemma immediate_save_buffer (s : Sys) (P : Json) :
  _data (self (snd (async_save P None s))) = JNull.
Proof. rewrite async_save_immediate. apply handle_write_data_buffer. Qed.

(** C3. After a save, delayed or not, a load that finds the buffer still
    filled returns the saved payload and leaves the whole state unchanged:
    it runs no executor job, so it reads nothing from storage.  After a
    delayed save the buffer is filled. *)
Theorem load_after_save_is_buffered (s : Sys) (P : Json) (delay : option Z) :
  let s1 := snd (async_save P delay s) in
  (delay <> None ->
   fst (async_save P delay s) = Ok tt /\
   _data (self s1) = record_of (self s) P) /\
  (_data (self s1) <> JNull -> async_load s1 = (Ok P, s1)).
Proof.
  destruct delay as [d|]; cbn zeta.
  - rewrite async_save_delayed. cbn [fst snd]. split.
    + intros _. split; reflexivity.
    + intros _. apply load_buffered with (st := self s); reflexivity.
  - split.
    + intros H. now contradiction H.
    + intros H. contradiction H. apply immediate_save_buffer.
Qed.

End Loading.

Section BaseClass.

Context {os : OS}.

(** C7. The migration function of the base class raises
    NotImplementedError, and so does a load of the base class that meets a
    stored record of another version. *)
Theorem base_migration_not_implemented :
  (forall (v d : Json) (s : Sys),
     _async_migrate_func (StoreClass := BaseStore) v d s =
       (Raise NotImplementedError, s)) /\
  (forall (s : Sys) (rec v d : Json),
     _data (self s) = JNull ->
     json_load_json (path (self s)) (Some JNull) (fs (hass s)) = Ok rec ->
     is_None rec = false ->
     getitem rec "version" = Ok v ->
     py_eq_int v (version (self s)) = false ->
     getitem rec "data" = Ok d ->
     async_load (cls := BaseStore) s =
       (Raise NotImplementedError, after_read s)).
Proof.
  split.
  - reflexivity.
  - intros s rec v d D R N Hv Hne Hd.
    rewrite (load_mismatch (cls := BaseStore) s D R N Hv Hne Hd).
    reflexivity.
Qed.

End BaseClass.

Lemma load_migrates_on_version_mismatch_witness :
  async_load (cls := Toy.ThemeStore) (Toy.sys_v2 Toy.disk_v1) =
    _async_migrate_func (StoreClass := Toy.ThemeStore) (JInt 1) Toy.dark
      (after_read (Toy.sys_v2 Toy.disk_v1)) /\
  self (after_read (Toy.sys_v2 Toy.disk_v1)) = self (Toy.sys_v2 Toy.disk_v1).
Proof.
  apply (load_migrates_on_version_mismatch (cls := Toy.ThemeStore)
           (Toy.sys_v2 Toy.disk_v1)
           (rec := JDict [("version", JInt 1); ("key", JStr "settings");
                          ("data", Toy.dark)]));
    reflexivity.
Defined.

(** C2 (as stated) fails: the store of version 2 loads the record of
    version 1; the migrated payload is returned, and the store is as it was
    before the load, its buffer empty. *)
Lemma load_keeps_no_migrated_state :
  fst (async_load (cls := Toy.ThemeStore) (Toy.sys_v2 Toy.disk_v1)) =
    Ok (JDict [("theme_v2", JStr "dark")]) /\
  self (snd (async_load (cls := Toy.ThemeStore) (Toy.sys_v2 Toy.disk_v1))) =
    Store_init 2 "settings" /\
  _data (self (snd (async_load (cls := Toy.ThemeStore)
                      (Toy.sys_v2 Toy.disk_v1)))) <>
    JDict [("theme_v2", JStr "dark")] /\
  _data (self (snd (async_load (cls := Toy.ThemeStore)
                      (Toy.sys_v2 Toy.disk_v1)))) <>
    record_of (Store_init 2 "settings") (JDict [("theme_v2", JStr "dark")]).
Proof.
  repeat split; try reflexivity; discriminate.
Qed.

Lemma load_raises_key_error_witness :
  async_load (cls := BaseStore) (Toy.sys Toy.disk_no_version) =
    (Raise (KeyError "version"), after_read (Toy.sys Toy.disk_no_version)) /\
  async_load (cls := BaseStore) (Toy.sys Toy.disk_no_data) =
    (Raise (KeyError "data"), after_read (Toy.sys Toy.disk_no_data)).
Proof.
  split.
  - apply (proj1 (load_raises_key_error (cls := BaseStore)
                    (Toy.sys Toy.disk_no_version)
                    (d := [("key", JStr "settings"); ("data", Toy.dark)])
                    eq_refl eq_refl)).
    reflexivity.
  - apply (proj2 (load_raises_key_error (cls := BaseStore)
                    (Toy.sys Toy.disk_no_data)
                    (d := [("version", JInt 1); ("key", JStr "settings")])
                    eq_refl eq_refl) (JInt 1));
      reflexivity.
Defined.

Lemma load_after_save_is_buffered_witness :
  async_load (cls := BaseStore)
    (snd (async_save Toy.dark (Some 5) (Toy.sys Toy.empty_disk))) =
  (Ok Toy.dark, snd (async_save Toy.dark (Some 5) (Toy.sys Toy.empty_disk))).
Proof.
  apply (proj2 (load_after_save_is_buffered (cls := BaseStore)
                  (Toy.sys Toy.empty_disk) Toy.dark (Some 5))).
  discriminate.
Defined.

Lemma base_migration_not_implemented_witness :
  async_load (cls := BaseStore) (Toy.sys_v2 Toy.disk_v1) =
    (Raise NotImplementedError, after_read (Toy.sys_v2 Toy.disk_v1)).
Proof.
  apply (proj2 base_migration_not_implemented (Toy.sys_v2 Toy.disk_v1)
           (JDict [("version", JInt 1); ("key", JStr "settings");
                   ("data", Toy.dark)]) (JInt 1) Toy.dark);
    reflexivity.
Defined.

(** ** Delayed saves, the timer and the shutdown event *)

Section Debounce.

Context {os : OS}.

Lemma bind_ret_tt (m : M unit) (s : Sys) : (m ;; ret tt) s = m s.
Proof. unfold bind, ret. now destruct (m s) as [[[]|e|] s']. Qed.

(** A delayed save arms the store: one timer with the delay of the save,
    one shutdown listener. *)
Lemma delayed_state_armed (s : Sys) (data : Json) (d : Z) :
  quiet s ->
  exists h, armed (delayed_state s data d) (next_handle (hass s)) d h.
Proof.
  intros Q. pose proof (quiet_timers_without Q) as T.
  destruct Q as (_ & S & L).
  unfold armed, delayed_state. cbn. rewrite T.
  destruct (_unsub_stop_listener (self s)) as [h|].
  - exists h. rewrite S. repeat split. exact L.
  - exists (Datatypes.S (next_handle (hass s))). rewrite S.
    repeat split. exact L.
Qed.

Lemma armed_quiet (s : Sys) (n : Handle) (d : Z) (h : Handle) :
  armed s n d h -> quiet s.
Proof.
  intros (T & S & UD & US & L). unfold quiet.
  rewrite T, S, UD, US. auto.
Qed.

(** On an armed store the timer and the shutdown event start the same
    write attempt, with nothing subscribed any more. *)
Lemma fire_timer_armed (s : Sys) (n : Handle) (d : Z) (h : Handle) :
  armed s n d h -> fire_timer n s = _handle_write_data (triggered s).
Proof.
  intros (T & S & UD & US & L).
  destruct s as [[v k dt ud us l] [x t sl nx lg j]]. cbn in *. subst.
  unfold fire_timer, bind, cancel_timer, modify_hass,
    _async_callback_delayed_write, modify_self,
    _async_cleanup_stop_listener, get_self, remove_listener, triggered.
  cbn. rewrite !Nat.eqb_refl. reflexivity.
Qed.

Lemma fire_stop_armed (s : Sys) (n : Handle) (d : Z) (h : Handle) :
  armed s n d h -> fire_stop s = _handle_write_data (triggered s).
Proof.
  intros (T & S & UD & US & L).
  destruct s as [[v k dt ud us l] [x t sl nx lg j]]. cbn in *. subst.
  unfold fire_stop. cbn [stop_listeners hass fire_listeners].
  rewrite bind_ret_tt.
  unfold bind, modify_hass, remove_listener,
    _async_callback_stop_write, modify_self,
    _async_cleanup_delay_listener, get_self, cancel_timer, triggered.
  cbn. rewrite !Nat.eqb_refl. reflexivity.
Qed.

(** The write attempt of a trigger: one job of the writer on the buffered
    record, run while no timer is pending; nothing is subscribed after. *)
Lemma triggered_write (s : Sys) :
  _write_lock (self s) = false ->
  let s2 := snd (_handle_write_data (triggered s)) in
  jobs (hass s2) =
    jobs (hass s)
      ++ [(JobWriteData (path (self s)) (_data (self s)),
           seen (writing (triggered s)))] /\
  fs (hass s2) =
    fs (snd (_write_data (self s) (path (self s)) (_data (self s)) (hass s)))
  /\ timers (hass s2) = [] /\ stop_listeners (hass s2) = [].
Proof.
  intros L.
  assert (L1 : _write_lock (self (triggered s)) = false) by exact L.
  destruct (handle_write_data_frame _ L1) as (T & S & _ & J & F).
  cbn zeta. rewrite T, S, J, F. repeat split.
  apply (write_job_outcome (triggered s) (self s) (hass s)). reflexivity.
Qed.

Lemma delayed_saves_untouched (l : list (Json * Z)) (s : Sys) :
  quiet s ->
  fst (delayed_saves l s) = Ok tt /\
  quiet (snd (delayed_saves l s)) /\ untouched s (snd (delayed_saves l s)).
Proof.
  revert s. induction l as [|[p d] l IH]; intros s Q.
  - cbn. split; [reflexivity | split; [exact Q | unfold untouched; auto]].
  - cbn [delayed_saves]. unfold bind. rewrite async_save_delayed.
    destruct (delayed_state_armed p d Q) as (h & A).
    destruct (IH _ (armed_quiet A)) as (R & Q' & F & J & G & V & K).
    split; [exact R |]. split; [exact Q' |].
    unfold untouched. rewrite F, J, G, V, K. cbn. auto.
Qed.

Lemma delayed_saves_last (l : list (Json * Z)) (p : Json) (d : Z) (s : Sys) :
  delayed_saves (l ++ [(p, d)]) s =
    match delayed_saves l s with
    | (Ok _, s') => (Ok tt, delayed_state s' p d)
    | r => r
    end.
Proof.
  revert s. induction l as [|[q e] l IH]; intros s.
  - cbn. unfold bind, ret. now rewrite async_save_delayed.
  - cbn [app delayed_saves]. unfold bind. rewrite async_save_delayed.
    apply IH.
Qed.

(** *** The invariant of the store: at most one timer, at most one
    shutdown listener, each held by the store *)

Lemma quiet_init (v : Z) (k : string) (x : FS) (n : Handle)
    (lg : list LogRecord) (j : list (Job * Seen)) :
  quiet (mkSys (Store_init v k) (mkHass x [] [] n lg j)).
Proof. repeat split. Qed.

Lemma triggered_quiet (s : Sys) :
  _write_lock (self s) = false ->
  fst (_handle_write_data (triggered s)) <> Blocked ->
  quiet (snd (_handle_write_data (triggered s))).
Proof.
  intros L B.
  assert (L1 : _write_lock (self (triggered s)) = false) by exact L.
  pose proof (handle_write_data_self _ L1
                (handle_write_data_blocked _ L1 B)) as E.
  destruct (handle_write_data_frame _ L1) as (T & S & _).
  unfold quiet. rewrite T, S, E. repeat split. exact L.
Qed.

Lemma immediate_start_triggered (s : Sys) (data : Json) :
  quiet s ->
  immediate_start s data =
    triggered (mkSys (set_data (record_of (self s) data) (self s)) (hass s)).
Proof.
  intros Q. unfold immediate_start, triggered. cbn.
  now rewrite (quiet_timers_without Q), (quiet_listeners_without Q).
Qed.

Lemma fire_timer_quiet (s : Sys) (h : Handle) :
  quiet s ->
  has_timer h (timers (hass s)) = true ->
  fire_timer h s = _handle_write_data (triggered s).
Proof.
  intros (T & S & L) H.
  destruct s as [[v k dt ud us l] [x t sl nx lg j]]. cbn in *. subst.
  destruct ud as [n|]; destruct t as [|[n' d] [|? ?]]; try discriminate.
  injection T as ->. cbn in H. rewrite orb_false_r in H.
  apply Nat.eqb_eq in H. subst n.
  unfold fire_timer, bind, cancel_timer, modify_hass,
    _async_callback_delayed_write, modify_self,
    _async_cleanup_stop_listener, get_self, remove_listener, triggered.
  cbn. rewrite !Nat.eqb_refl. cbn.
  destruct us as [hs|]; cbn; rewrite ?Nat.eqb_refl; reflexivity.
Qed.

Lemma fire_stop_quiet (s : Sys) (h : Handle) :
  quiet s ->
  _unsub_stop_listener (self s) = Some h ->
  fire_stop s = _handle_write_data (triggered s).
Proof.
  intros (T & S & L) H.
  destruct s as [[v k dt ud us l] [x t sl nx lg j]]. cbn in *. subst.
  destruct ud as [n|]; destruct t as [|[n' d] [|? ?]]; try discriminate;
    [injection T as -> |];
    unfold fire_stop; cbn [stop_listeners hass fire_listeners];
    rewrite bind_ret_tt;
    unfold bind, modify_hass, remove_listener,
      _async_callback_stop_write, modify_self,
      _async_cleanup_delay_listener, get_self, cancel_timer, triggered;
    cbn; rewrite !Nat.eqb_refl; reflexivity.
Qed.

(** Every event keeps the invariant, unless its write attempt is left
    waiting for the executor. *)
Lemma quiet_step (e : Event) (s : Sys) :
  quiet s ->
  fst (step e s) <> Blocked ->
  quiet (snd (step e s)).
Proof.
  intros Q B. destruct e as [data [d|] | h |]; cbn [step] in *.
  - rewrite async_save_delayed.
    destruct (delayed_state_armed data d Q) as (h & A).
    exact (armed_quiet A).
  - rewrite async_save_immediate, (immediate_start_triggered data Q) in *.
    apply triggered_quiet; [apply Q | exact B].
  - destruct (has_timer h (timers (hass s))) eqn:H.
    + rewrite (fire_timer_quiet h Q H) in *.
      apply triggered_quiet; [apply Q | exact B].
    + unfold fire_timer. rewrite H. exact Q.
  - destruct (_unsub_stop_listener (self s)) as [h|] eqn:H.
    + rewrite (fire_stop_quiet Q H) in *.
      apply triggered_quiet; [apply Q | exact B].
    + destruct Q as (T & S & L). unfold fire_stop. rewrite S, H.
      cbn. unfold quiet. rewrite H. rewrite H in S. auto.
Qed.

(** Both triggers of an armed store run the writer once, on the buffered
    record, and leave nothing subscribed. *)
Lemma armed_trigger (s : Sys) (n : Handle) (d : Z) (h : Handle)
    (trigger : M unit) :
  armed s n d h ->
  trigger = fire_timer n \/ trigger = fire_stop ->
  let s2 := snd (trigger s) in
  jobs (hass s2) =
    jobs (hass s)
      ++ [(JobWriteData (path (self s)) (_data (self s)),
           seen (writing (triggered s)))] /\
  fs (hass s2) =
    fs (snd (_write_data (self s) (path (self s)) (_data (self s)) (hass s)))
  /\ timers (hass s2) = [] /\ stop_listeners (hass s2) = [].
Proof.
  intros A [-> | ->].
  - rewrite (fire_timer_armed A). apply triggered_write. apply A.
  - rewrite (fire_stop_armed A). apply triggered_write. apply A.
Qed.

(** The record a delayed save buffers is written as the record of the
    store the run started from, on the disk the run started from. *)
Lemma delayed_state_write (s s' : Sys) (P : Json) (d : Z) :
  untouched s s' ->
  let s1 := delayed_state s' P d in
  jobs (hass s1) = jobs (hass s) /\ fs (hass s1) = fs (hass s) /\
  path (self s1) = path (self s) /\
  _data (self s1) = record_of (self s) P /\
  fs (snd (_write_data (self s1) (path (self s1)) (_data (self s1))
             (hass s1))) =
    fs (snd (_write_data (self s) (path (self s)) (record_of (self s) P)
               (hass s))).
Proof.
  intros (F & J & _ & V & K). cbn zeta.
  assert (R : record_of (self s') P = record_of (self s) P)
    by (unfold record_of; now rewrite V, K).
  assert (Pa : path (self (delayed_state s' P d)) = path (self s))
    by (unfold path; cbn; now rewrite K).
  repeat split; try assumption.
  rewrite Pa. cbn [delayed_state self _data]. rewrite R.
  apply write_data_fs. exact F.
Qed.

(** The store after a trigger of an armed store: the buffer is empty, the
    version and the key are kept. *)
Lemma armed_trigger_store (s : Sys) (n : Handle) (d : Z) (h : Handle)
    (trigger : M unit) :
  armed s n d h ->
  trigger = fire_timer n \/ trigger = fire_stop ->
  _data (self (snd (trigger s))) = JNull /\
  version (self (snd (trigger s))) = version (self s) /\
  key (self (snd (trigger s))) = key (self s).
Proof.
  intros A Ht.
  assert (E : trigger s = _handle_write_data (triggered s)).
  { destruct Ht as [-> | ->];
      [exact (fire_timer_armed A) | exact (fire_stop_armed A)]. }
  rewrite E. split; [apply handle_write_data_buffer |].
  exact (handle_write_data_identity (triggered s)).
Qed.

(** What the flush of a delayed save leaves on the disk, through the
    platform: [json.save_json] has been applied to the record of the
    payload, on the disk the run started from (or on the disk [os.makedirs]
    left of it); and once the platform reads that record back from the
    store's path, a load returns the payload. *)
Lemma delayed_flush (s s' : Sys) (P : Json) (d : Z) (trigger : M unit) :
  untouched s s' ->
  quiet s' ->
  trigger = fire_timer (next_handle (hass s')) \/ trigger = fire_stop ->
  let s2 := snd (trigger (delayed_state s' P d)) in
  let p := path (self s) in
  let rec := record_of (self s) P in
  (os_path_isdir (os_path_dirname p) (fs (hass s)) = true ->
   fs (hass s2) = snd (json_save_json p rec (fs (hass s)))) /\
  (os_path_isdir (os_path_dirname p) (fs (hass s)) = false ->
   fst (os_makedirs (os_path_dirname p) (fs (hass s))) = Ok tt ->
   fs (hass s2) =
     snd (json_save_json p rec
            (snd (os_makedirs (os_path_dirname p) (fs (hass s)))))) /\
  (forall cls : StoreClass,
     json_load_json p (Some JNull) (fs (hass s2)) = Ok rec ->
     async_load (cls := cls) s2 = (Ok P, after_read s2)).
Proof.
  intros U Q Ht s2 p rec.
  destruct (delayed_state_write P d U) as (_ & _ & Pa & _ & W).
  destruct (delayed_state_armed P d Q) as (h & A).
  destruct (armed_trigger A Ht) as (_ & F2 & _ & _).
  destruct (armed_trigger_store A Ht) as (D2 & V2 & K2).
  cbn zeta in F2. fold s2 in F2, D2, V2, K2.
  rewrite W in F2. fold p rec in F2.
  destruct (write_data_disk (self s) p rec (hass s)) as (Wd & Wm).
  destruct U as (_ & _ & _ & V & K).
  split; [| split].
  - intros Hd. rewrite F2. apply (Wd Hd).
  - intros Hd Hm. rewrite F2. apply (Wm Hd Hm).
  - intros cls R.
    assert (Pa2 : path (self s2) = p).
    { unfold p, path. rewrite K2. cbn. now rewrite K. }
    apply load_reads_back with (st := self s).
    + exact D2.
    + rewrite V2. cbn. now rewrite V.
    + rewrite Pa2. exact R.
Qed.

(** C4. After a run of delayed saves that starts from a quiet store, no
    write has happened, only the timer of the last save is pending and the
    buffer holds the record of the last payload; whichever trigger then
    fires, the timer or the shutdown event, the writer runs once, on that
    record.  What reaches the disk is the record of the last payload only:
    the disk is the one [json.save_json] makes, from the record of the last
    payload, of the disk the run started from (after [os.makedirs] if the
    storage directory was missing); and once the platform reads that record
    back, a load returns the last payload. *)
Theorem delayed_saves_coalesce (s : Sys) (l : list (Json * Z))
    (P : Json) (d : Z) :
  quiet s ->
  let s1 := snd (delayed_saves (l ++ [(P, d)]) s) in
  let rec := record_of (self s) P in
  let p := path (self s) in
  fst (delayed_saves (l ++ [(P, d)]) s) = Ok tt /\
  jobs (hass s1) = jobs (hass s) /\
  fs (hass s1) = fs (hass s) /\
  _data (self s1) = rec /\
  exists h,
    timers (hass s1) = [(h, d)] /\
    forall trigger : M unit,
      trigger = fire_timer h \/ trigger = fire_stop ->
      (exists v,
         jobs (hass (snd (trigger s1))) =
           jobs (hass s) ++ [(JobWriteData p rec, v)]) /\
      fs (hass (snd (trigger s1))) =
        fs (snd (_write_data (self s) p rec (hass s))) /\
      (os_path_isdir (os_path_dirname p) (fs (hass s)) = true ->
       fs (hass (snd (trigger s1))) =
         snd (json_save_json p rec (fs (hass s)))) /\
      (os_path_isdir (os_path_dirname p) (fs (hass s)) = false ->
       fst (os_makedirs (os_path_dirname p) (fs (hass s))) = Ok tt ->
       fs (hass (snd (trigger s1))) =
         snd (json_save_json p rec
                (snd (os_makedirs (os_path_dirname p) (fs (hass s)))))) /\
      (forall cls : StoreClass,
         json_load_json p (Some JNull) (fs (hass (snd (trigger s1)))) =
           Ok rec ->
         async_load (cls := cls) (snd (trigger s1)) =
           (Ok P, after_read (snd (trigger s1)))).
Proof.
  intros Q. cbn zeta. rewrite delayed_saves_last.
  destruct (delayed_saves_untouched l Q) as (R & Q' & U).
  destruct (delayed_saves l s) as [r s']. cbn in R, Q', U. subst r.
  cbn [fst snd].
  destruct (delayed_state_write P d U) as (J & F & Pa & D & W).
  destruct (delayed_state_armed P d Q') as (h & A).
  repeat split; try assumption.
  exists (next_handle (hass s')). split; [apply A |].
  intros trigger Ht.
  destruct (armed_trigger A Ht) as (J2 & F2 & _ & _).
  split; [| split].
  - eexists. rewrite J2, J, Pa, D. reflexivity.
  - rewrite F2. exact W.
  - exact (delayed_flush P d U Q' Ht).
Qed.

(** C5. A delayed save on a quiet store followed by the shutdown event:
    the writer runs once, on the record of the payload, while no timer is
    pending any more; afterwards no timer and no listener is left, so that
    neither a timer nor a second shutdown event changes anything.  The
    payload is persisted by that one write: the disk is the one
    [json.save_json] makes, from the record of the payload, of the disk at
    hand (after [os.makedirs] if the storage directory was missing), it
    stays so when a timer or a second shutdown event comes, and once the
    platform reads that record back, a load returns the payload. *)
Theorem shutdown_flushes_once (s : Sys) (P : Json) (D : Z) :
  quiet s ->
  let s1 := snd (async_save P (Some D) s) in
  let s2 := snd (fire_stop s1) in
  let rec := record_of (self s) P in
  let p := path (self s) in
  (exists v,
     jobs (hass s2) = jobs (hass s) ++ [(JobWriteData p rec, v)]
     /\ seen_timers v = []) /\
  fs (hass s2) = fs (snd (_write_data (self s) p rec (hass s)))
  /\ timers (hass s2) = [] /\ stop_listeners (hass s2) = [] /\
  (forall h, fire_timer h s2 = (Ok tt, s2)) /\
  fire_stop s2 = (Ok tt, s2) /\
  (os_path_isdir (os_path_dirname p) (fs (hass s)) = true ->
   fs (hass s2) = snd (json_save_json p rec (fs (hass s)))) /\
  (os_path_isdir (os_path_dirname p) (fs (hass s)) = false ->
   fst (os_makedirs (os_path_dirname p) (fs (hass s))) = Ok tt ->
   fs (hass s2) =
     snd (json_save_json p rec
            (snd (os_makedirs (os_path_dirname p) (fs (hass s)))))) /\
  (forall cls : StoreClass,
     json_load_json p (Some JNull) (fs (hass s2)) = Ok rec ->
     async_load (cls := cls) s2 = (Ok P, after_read s2)).
Proof.
  intros Q. cbn zeta. rewrite async_save_delayed. cbn [snd].
  assert (U : untouched s s) by (unfold untouched; auto).
  destruct (delayed_state_write P D U) as (J & F & Pa & Dt & W).
  destruct (delayed_state_armed P D Q) as (h & A).
  destruct (armed_trigger A (or_intror eq_refl)) as (J2 & F2 & T2 & S2).
  cbn zeta in J2, F2, T2, S2.
  pose proof (delayed_flush P D U Q (or_intror eq_refl)) as Fl.
  cbn zeta in Fl.
  set (s2 := snd (fire_stop (delayed_state s P D))) in *.
  split.
  { eexists. split; [rewrite J2, J, Pa, Dt |]; reflexivity. }
  split. { rewrite F2. exact W. }
  split. { exact T2. }
  split. { exact S2. }
  split. { intros h'. unfold fire_timer. rewrite T2. reflexivity. }
  split. { unfold fire_stop. rewrite S2. reflexivity. }
  exact Fl.
Qed.

End Debounce.

Lemma delayed_saves_coalesce_witness :
  Toy.files
    (fs (hass (snd (fire_stop
       (snd (delayed_saves ([(Toy.light, 10)] ++ [(Toy.dark, 5)])
               (Toy.sys Toy.empty_disk))))))) =
  [(Toy.settings_path, record_of (Store_init 1 "settings") Toy.dark)].
Proof.
  destruct (delayed_saves_coalesce (s := Toy.sys Toy.empty_disk)
              [(Toy.light, 10)] Toy.dark 5)
    as (_ & _ & _ & _ & h & _ & H).
  - repeat split.
  - destruct (H fire_stop (or_intror eq_refl)) as (_ & _ & _ & Hm & _).
    exact (f_equal Toy.files (Hm eq_refl eq_refl)).
Defined.

Lemma shutdown_flushes_once_witness :
  Toy.files
    (fs (hass (snd (fire_stop
       (snd (async_save Toy.light (Some 5) (Toy.sys Toy.disk_v1))))))) =
  [(Toy.settings_path, record_of (Store_init 1 "settings") Toy.light)].
Proof.
  destruct (shutdown_flushes_once (s := Toy.sys Toy.disk_v1) Toy.light 5)
    as (_ & _ & _ & _ & _ & _ & Hd & _).
  - repeat split.
  - exact (f_equal Toy.files (Hd eq_refl)).
Defined.

(** ** The legacy importer *)

Section Migrator.

Context {os : OS}.

Lemma migrator_reads (s : Sys) (old_path : string)
    (f : option (Json -> M Json)) (config : Json) :
  fst (load_old_config old_path (hass s)) = Ok config ->
  async_migrator old_path f s =
    if is_None config then (Ok JNull, after_legacy_read s old_path)
    else
      (config' <- transformed f config ;;
       async_save config' None ;;
       async_add_executor_job (JobRemove old_path) (remove_job old_path) ;;
       ret config') (after_legacy_read s old_path).
Proof.
  intros R. unfold async_migrator, bind at 1, async_add_executor_job.
  unfold load_old_config in *. cbn [fs add_job].
  destruct (negb (os_path_isfile old_path (fs (hass s)))); cbn in R |- *.
  - injection R as <-. reflexivity.
  - rewrite R. destruct (is_None config); reflexivity.
Qed.

(** C9. A legacy file whose content parses to None: the importer returns
    None, runs neither the writer nor the removal and leaves the store and
    the disk as they are, the file included; an absent file gives the same
    result and the same trace. *)
Theorem migrator_null_content (s : Sys) (old_path : string)
    (f : option (Json -> M Json)) :
  os_path_isfile old_path (fs (hass s)) = true ->
  json_load_json old_path None (fs (hass s)) = Ok JNull ->
  async_migrator old_path f s = (Ok JNull, after_legacy_read s old_path) /\
  os_path_isfile old_path
    (fs (hass (snd (async_migrator old_path f s)))) = true /\
  (forall s0 : Sys,
     os_path_isfile old_path (fs (hass s0)) = false ->
     async_migrator old_path f s0 = (Ok JNull, after_legacy_read s0 old_path)).
Proof.
  intros E R.
  assert (H : async_migrator old_path f s =
              (Ok JNull, after_legacy_read s old_path)).
  { rewrite migrator_reads with (config := JNull); [reflexivity |].
    unfold load_old_config. rewrite E. exact R. }
  split; [exact H | split].
  - rewrite H. exact E.
  - intros s0 E0.
    rewrite migrator_reads with (config := JNull); [reflexivity |].
    unfold load_old_config. now rewrite E0.
Qed.

(** The error the store catches in an immediate save is the last record of
    the log when the save returns. *)
Lemma immediate_save_error_logged (s : Sys) (data : Json) (e : Exn) :
  _write_lock (self s) = false ->
  e = SerializationError \/ e = WriteError ->
  fst (_write_data (self s) (path (self s)) (record_of (self s) data)
         (hass s)) = Raise e ->
  exists l,
    log (hass (snd (async_save data None s))) =
      l ++ [LogError (key (self s)) e].
Proof.
  intros L He Hw. rewrite async_save_immediate.
  assert (L1 : _write_lock (self (immediate_start s data)) = false)
    by exact L.
  destruct (immediate_write_job s data) as (Ho & _). rewrite Hw in Ho.
  rewrite (handle_write_data_eq _ L1), Ho.
  destruct He as [-> | ->]; cbn; eexists; reflexivity.
Qed.

(** C8 (as amended). A legacy file with content, a transform (if there is
    one) that returns, no write of the store in flight, a writer that
    raises nothing but SerializationError or WriteError, and a removal that
    succeeds: the importer saves the payload at once, and only when the
    save has returned runs the removal, on the disk the writer left; it
    returns the payload.  Through the platform: the outcome of the writer
    is the outcome of [json.save_json] on the record, and the removal acts
    on the disk [json.save_json] left (after [os.makedirs] if the storage
    directory was missing), so that the record is on storage before the
    removal when the writer succeeded.  When the writer raises
    SerializationError or WriteError, the save returns normally all the
    same, the error is the last record of the log, and the legacy file is
    removed. *)
Theorem migrator_saves_then_removes (s s1 : Sys) (old_path : string)
    (f : option (Json -> M Json)) (config payload : Json) :
  os_path_isfile old_path (fs (hass s)) = true ->
  json_load_json old_path None (fs (hass s)) = Ok config ->
  is_None config = false ->
  transformed f config (after_legacy_read s old_path) = (Ok payload, s1) ->
  _write_lock (self s1) = false ->
  let rec := record_of (self s1) payload in
  let p := path (self s1) in
  let written := _write_data (self s1) p rec (hass s1) in
  fst written = Ok tt \/ fst written = Raise SerializationError \/
    fst written = Raise WriteError ->
  fst (os_remove old_path (fs (snd written))) = Ok tt ->
  let out := async_migrator old_path f s in
  fst out = Ok payload /\
  fst (async_save payload None s1) = Ok tt /\
  (exists v v',
     jobs (hass (snd out)) =
       jobs (hass s1) ++ [(JobWriteData p rec, v); (JobRemove old_path, v')])
  /\ fs (hass (snd out)) = snd (os_remove old_path (fs (snd written))) /\
  (os_path_isdir (os_path_dirname p) (fs (hass s1)) = true ->
   fst written = fst (json_save_json p rec (fs (hass s1))) /\
   fs (hass (snd out)) =
     snd (os_remove old_path (snd (json_save_json p rec (fs (hass s1)))))) /\
  (os_path_isdir (os_path_dirname p) (fs (hass s1)) = false ->
   fst (os_makedirs (os_path_dirname p) (fs (hass s1))) = Ok tt ->
   fst written =
     fst (json_save_json p rec
            (snd (os_makedirs (os_path_dirname p) (fs (hass s1))))) /\
   fs (hass (snd out)) =
     snd (os_remove old_path
            (snd (json_save_json p rec
                    (snd (os_makedirs (os_path_dirname p) (fs (hass s1)))))))) /\
  (forall e,
     fst written = Raise e ->
     exists l, log (hass (snd out)) = l ++ [LogError (key (self s1)) e]).
Proof.
  intros E R N T L rec p written W D out.
  assert (L1 : _write_lock (self (immediate_start s1 payload)) = false)
    by exact L.
  destruct (immediate_write_job s1 payload) as (Ho & Hf).
  fold rec in Ho, Hf. fold p in Ho, Hf. fold written in Ho, Hf.
  destruct (handle_write_data_frame _ L1) as (_ & _ & _ & J & F).
  assert (O : fst (async_save payload None s1) = Ok tt).
  { rewrite async_save_immediate, (handle_write_data_outcome _ L1), Ho.
    destruct W as [-> | [-> | ->]]; reflexivity. }
  set (s2 := snd (async_save payload None s1)).
  assert (Hout : out =
    (Ok payload,
     mkSys (self s2)
       (set_fs (snd (os_remove old_path (fs (snd written))))
          (add_job (JobRemove old_path) (seen s2) (hass s2))))).
  { unfold out.
    rewrite migrator_reads with (config := config);
      [| unfold load_old_config; rewrite E; exact R].
    rewrite N. unfold bind at 1. rewrite T.
    unfold bind at 1. unfold s2.
    destruct (async_save payload None s1) as [r s2'] eqn:Es.
    cbn [fst snd] in *. subst r.
    rewrite async_save_immediate in Es.
    rewrite Es in F, J. cbn [snd] in F, J.
    unfold bind, async_add_executor_job, remove_job, ret. cbn [fs add_job].
    rewrite F, Hf.
    destruct (os_remove old_path (fs (snd written))) as [[[]|e|] x];
      try discriminate D.
    reflexivity. }
  destruct (write_data_disk (self s1) p rec (hass s1)) as (Wd & Wm).
  fold written in Wd, Wm.
  rewrite Hout. cbn [fst snd hass jobs fs log set_fs add_job].
  split; [reflexivity |].
  split; [exact O |].
  split; [| split; [reflexivity | split; [| split]]].
  - unfold s2. rewrite async_save_immediate, J.
    do 2 eexists. rewrite <- app_assoc. reflexivity.
  - intros Hd. destruct (Wd Hd) as (Wo & Wf).
    split; [exact Wo | now rewrite Wf].
  - intros Hd Hm. destruct (Wm Hd Hm) as (Wo & Wf).
    split; [exact Wo | now rewrite Wf].
  - intros e He. unfold s2.
    apply immediate_save_error_logged; [exact L | | exact He].
    fold rec p written in He |- *.
    destruct W as [W | [W | W]]; rewrite W in He;
      [discriminate He | injection He as <-; now left
      | injection He as <-; now right].
Qed.

End Migrator.

Lemma migrator_null_content_witness :
  async_migrator Toy.legacy_path None (Toy.sys (Toy.legacy_disk JNull false)) =
    (Ok JNull,
     after_legacy_read (Toy.sys (Toy.legacy_disk JNull false)) Toy.legacy_path).
Proof.
  exact (proj1 (migrator_null_content
                  (Toy.sys (Toy.legacy_disk JNull false))
                  Toy.legacy_path None eq_refl eq_refl)).
Defined.

Lemma migrator_saves_then_removes_witness :
  fst (async_migrator Toy.legacy_path None
         (Toy.sys (Toy.legacy_disk Toy.dark false))) = Ok Toy.dark /\
  Toy.files
    (fs (hass (snd (async_migrator Toy.legacy_path None
                      (Toy.sys (Toy.legacy_disk Toy.dark false)))))) =
  [(Toy.settings_path, record_of (Store_init 1 "settings") Toy.dark)].
Proof.
  destruct (migrator_saves_then_removes
              (Toy.sys (Toy.legacy_disk Toy.dark false))
              (s1 := after_legacy_read
                       (Toy.sys (Toy.legacy_disk Toy.dark false))
                       Toy.legacy_path)
              Toy.legacy_path None
              (config := Toy.dark) (payload := Toy.dark)
              eq_refl eq_refl eq_refl eq_refl eq_refl
              (or_introl eq_refl) eq_refl)
    as (Ho & _ & _ & _ & Hd & _).
  split; [exact Ho |].
  exact (f_equal Toy.files (proj2 (Hd eq_refl))).
Defined.

(** C8 (as stated) fails: the legacy file holds a payload and the disk is
    full; the importer returns the payload and the legacy file is gone,
    while the write of the store raised WriteError, which the store logged:
    no record of the store is on the disk. *)
Lemma migrator_removes_after_failed_write :
  fst (async_migrator Toy.legacy_path None
         (Toy.sys (Toy.legacy_disk Toy.dark true))) = Ok Toy.dark /\
  Toy.files (fs (hass (snd (async_migrator Toy.legacy_path None
                              (Toy.sys (Toy.legacy_disk Toy.dark true))))))
    = [] /\
  log (hass (snd (async_migrator Toy.legacy_path None
                    (Toy.sys (Toy.legacy_disk Toy.dark true))))) =
    [LogDebug "settings"; LogError "settings" WriteError] /\
  map fst (jobs (hass (snd (async_migrator Toy.legacy_path None
                              (Toy.sys (Toy.legacy_disk Toy.dark true)))))) =
    [JobLoadOldConfig Toy.legacy_path;
     JobWriteData Toy.settings_path
       (record_of (Store_init 1 "settings") Toy.dark);
     JobRemove Toy.legacy_path].
Proof.
  repeat split.
Qed.

(** * Further properties of the module *)

(** ** The states of a store along a run *)

Section Runs.

Context {os : OS}.

Lemma idle_quiet (s : Sys) : Idle s -> quiet s.
Proof.
  intros (_ & UD & US & T & S & L). unfold quiet. rewrite UD, US, T, S. auto.
Qed.

Lemma pending_quiet (s : Sys) (P : Json) : Pending s P -> quiet s.
Proof. intros (_ & n & d & h & A). exact (armed_quiet A). Qed.

Lemma record_of_eq (st : Store) (v : Z) (k : string) (P : Json) :
  version st = v -> key st = k -> record_of st P = record_of (Store_init v k) P.
Proof. intros <- <-. reflexivity. Qed.

(** The write attempt of a trigger that is not left waiting ends in the
    idle state, with one more job of the writer. *)
Lemma triggered_idle (s : Sys) :
  _write_lock (self s) = false ->
  fst (_handle_write_data (triggered s)) <> Blocked ->
  let s2 := snd (_handle_write_data (triggered s)) in
  Idle s2 /\ version (self s2) = version (self s) /\
  key (self s2) = key (self s) /\
  jobs (hass s2) =
    jobs (hass s)
      ++ [(JobWriteData (path (self s)) (_data (self s)),
           seen (writing (triggered s)))].
Proof.
  intros L B.
  assert (L1 : _write_lock (self (triggered s)) = false) by exact L.
  pose proof (handle_write_data_self _ L1
                (handle_write_data_blocked _ L1 B)) as E.
  destruct (handle_write_data_frame _ L1) as (T & S & _ & J & _).
  cbn zeta. unfold Idle. rewrite T, S, E, J. repeat split. exact L.
Qed.

Lemma stored_in_incl (v : Z) (k : string) (pl pl' : list Json)
    (l : list (Job * Seen)) :
  incl pl pl' -> Forall (stored_in v k pl) l -> Forall (stored_in v k pl') l.
Proof.
  intros I F. eapply Forall_impl; [| exact F].
  intros jv (P & HP & E). exists P. auto.
Qed.

Lemma run_inv_incl (v : Z) (k : string) (j0 : list (Job * Seen))
    (pl pl' : list Json) (s : Sys) :
  incl pl pl' -> run_inv v k j0 pl s -> run_inv v k j0 pl' s.
Proof.
  intros I (V & K & St & added & J & F).
  split; [exact V | split; [exact K | split]].
  - destruct St as [Hi | (P & HP & Pe)]; [now left | right].
    exists P. auto.
  - exists added. split; [exact J | now apply stored_in_incl with pl].
Qed.

(** The invariant grows by one job of the writer when a trigger writes the
    buffered record of a payload of the run. *)
Lemma run_inv_triggered (v : Z) (k : string) (j0 : list (Job * Seen))
    (pl : list Json) (s : Sys) (P : Json) (added : list (Job * Seen)) :
  version (self s) = v -> key (self s) = k ->
  _write_lock (self s) = false ->
  _data (self s) = record_of (self s) P ->
  In P pl ->
  jobs (hass s) = j0 ++ added -> Forall (stored_in v k pl) added ->
  fst (_handle_write_data (triggered s)) <> Blocked ->
  run_inv v k j0 pl (snd (_handle_write_data (triggered s))).
Proof.
  intros V K L D HP J F B.
  destruct (triggered_idle s L B) as (I & V2 & K2 & J2).
  split; [congruence | split; [congruence | split; [now left |]]].
  eexists. split.
  - rewrite J2, J, <- app_assoc. reflexivity.
  - apply Forall_app. split; [exact F |].
    constructor; [| constructor].
    exists P. split; [exact HP |]. cbn [fst]. unfold path.
    rewrite D, K. rewrite record_of_eq with (v := v) (k := k) by assumption.
    reflexivity.
Qed.

Lemma run_inv_step (v : Z) (k : string) (j0 : list (Job * Seen))
    (pl : list Json) (e : Event) (s : Sys) :
  run_inv v k j0 pl s ->
  fst (step e s) <> Blocked ->
  run_inv v k j0 (pl ++ saved_payloads [e]) (snd (step e s)).
Proof.
  intros (V & K & St & added & J & F) B.
  assert (Q : quiet s).
  { destruct St as [I | (P & _ & Pe)];
      [exact (idle_quiet I) | exact (pending_quiet Pe)]. }
  destruct e as [data [d|] | h |]; cbn [step saved_payloads] in *;
    rewrite ?app_nil_r.
  - (* a delayed save *)
    rewrite async_save_delayed. cbn [snd].
    split; [exact V | split; [exact K | split]].
    + right. exists data. split; [apply in_or_app; right; now left |].
      split; [reflexivity |].
      destruct (delayed_state_armed data d Q) as (h & A). eauto.
    + exists added. split; [exact J |].
      apply stored_in_incl with pl; [apply incl_appl, incl_refl | exact F].
  - (* an immediate save *)
    rewrite async_save_immediate, (immediate_start_triggered data Q) in *.
    apply run_inv_triggered with (P := data) (added := added);
      try assumption; try reflexivity.
    + apply Q.
    + apply in_or_app. right. now left.
    + apply stored_in_incl with pl; [apply incl_appl, incl_refl | exact F].
  - (* a timer *)
    destruct (has_timer h (timers (hass s))) eqn:H.
    + destruct St as [I | (P & HP & D & Pe)].
      * destruct I as (_ & _ & _ & T & _). rewrite T in H. discriminate H.
      * rewrite (fire_timer_quiet h Q H) in *.
        apply run_inv_triggered with (P := P) (added := added);
          try assumption. apply Q.
    + unfold fire_timer. rewrite H. cbn [snd].
      split; [exact V | split; [exact K | split; [exact St |]]].
      exists added. auto.
  - (* the shutdown event *)
    destruct St as [I | (P & HP & D & n & d & h & A)].
    + assert (E : fire_stop s = (Ok tt, s)).
      { unfold fire_stop. destruct I as (_ & _ & _ & _ & S & _).
        rewrite S. reflexivity. }
      rewrite E. cbn [snd].
      split; [exact V | split; [exact K | split; [now left |]]].
      exists added. auto.
    + rewrite (fire_stop_armed A) in *.
      apply run_inv_triggered with (P := P) (added := added);
        try assumption. apply Q.
Qed.

Lemma run_inv_run (v : Z) (k : string) (j0 : list (Job * Seen))
    (l : list Event) (pl : list Json) (s s' : Sys) :
  run_inv v k j0 pl s ->
  run l s = Some s' ->
  run_inv v k j0 (pl ++ saved_payloads l) s'.
Proof.
  revert pl s. induction l as [|e l IH]; intros pl s I R.
  - cbn in R. injection R as <-. cbn. now rewrite app_nil_r.
  - cbn [run] in R.
    assert (B : fst (step e s) <> Blocked).
    { intros E. destruct (step e s) as [[u|x|] s1]; cbn in E;
        discriminate. }
    pose proof (run_inv_step e I B) as I1.
    assert (R1 : run l (snd (step e s)) = Some s').
    { destruct (step e s) as [[u|x|] s1]; cbn [snd] in *;
        [exact R | exact R | discriminate R]. }
    pose proof (IH _ _ I1 R1) as I2.
    apply run_inv_incl with ((pl ++ saved_payloads [e]) ++ saved_payloads l);
      [| exact I2].
    rewrite <- app_assoc.
    apply incl_app; [apply incl_appl, incl_refl | apply incl_appr].
    destruct e; cbn; apply incl_refl.
Qed.

Lemma idle_run_inv (s : Sys) :
  Idle s -> run_inv (version (self s)) (key (self s)) (jobs (hass s)) [] s.
Proof.
  intros I. split; [reflexivity | split; [reflexivity | split; [now left |]]].
  exists []. split; [now rewrite app_nil_r | constructor].
Qed.

(** X1. The state machine of the store.  After any run of saves, timers and
    shutdown events from an idle store, none of them left waiting, the
    store is idle again (nothing buffered, nothing subscribed) or pending:
    the record of a payload saved in the run is buffered, and exactly one
    timer and one shutdown listener exist, both held by the store. *)
Theorem run_idle_or_pending (l : list Event) (s s' : Sys) :
  Idle s ->
  run l s = Some s' ->
  Idle s' \/ exists P, In P (saved_payloads l) /\ Pending s' P.
Proof.
  intros I R.
  destruct (run_inv_run l (idle_run_inv I) R) as (_ & _ & St & _).
  exact St.
Qed.

(** X2. Along such a run the configured version and key of the store stay
    as they are, and every executor job the run adds is a job of the writer
    at the path of the store, on the record (version, key, data) of a
    payload saved in the run: None is never handed to the writer. *)
Theorem run_writes_saved_records (l : list Event) (s s' : Sys) :
  Idle s ->
  run l s = Some s' ->
  version (self s') = version (self s) /\
  key (self s') = key (self s) /\
  exists added,
    jobs (hass s') = jobs (hass s) ++ added /\
    Forall (fun jv =>
              exists P, In P (saved_payloads l) /\
                fst jv = JobWriteData (path (self s)) (record_of (self s) P))
           added.
Proof.
  intros I R.
  destruct (run_inv_run l (idle_run_inv I) R) as (V & K & _ & added & J & F).
  split; [exact V | split; [exact K |]].
  exists added. split; [exact J |].
  eapply Forall_impl; [| exact F].
  intros jv (P & HP & E). exists P. split; [exact HP |]. exact E.
Qed.

End Runs.

Lemma run_idle_or_pending_witness :
  Idle (snd (step Shutdown
          (snd (step (Save Toy.dark (Some 5)) (Toy.sys Toy.empty_disk))))) \/
  exists P,
    In P (saved_payloads [Save Toy.dark (Some 5); Shutdown]) /\
    Pending (snd (step Shutdown
               (snd (step (Save Toy.dark (Some 5))
                       (Toy.sys Toy.empty_disk))))) P.
Proof.
  apply (run_idle_or_pending [Save Toy.dark (Some 5); Shutdown]
           (s := Toy.sys Toy.empty_disk)).
  - repeat split.
  - vm_compute. reflexivity.
Defined.

Lemma run_writes_saved_records_witness :
  version (self (snd (step (TimerFires 2%nat)
             (snd (step (Save Toy.dark (Some 5))
                     (snd (step (Save Toy.light (Some 9))
                             (Toy.sys Toy.empty_disk)))))))) = 1.
Proof.
  apply (run_writes_saved_records
           [Save Toy.light (Some 9); Save Toy.dark (Some 5); TimerFires 2%nat]
           (s := Toy.sys Toy.empty_disk)).
  - repeat split.
  - vm_compute. reflexivity.
Defined.

(** ** More on saves *)

Unset Implicit Arguments.

Section Saves.

Context {os : OS}.

(** The state an immediate save leaves, unless its job is left waiting. *)
Lemma immediate_save_state (s : Sys) (data : Json) :
  _write_lock (self s) = false ->
  fst (_write_data (self s) (path (self s)) (record_of (self s) data)
         (hass s)) <> Blocked ->
  let s2 := snd (async_save data None s) in
  self s2 = unsubscribed JNull (self s) /\
  fs (hass s2) =
    fs (snd (_write_data (self s) (path (self s)) (record_of (self s) data)
               (hass s))) /\
  jobs (hass s2) =
    jobs (hass s)
      ++ [(JobWriteData (path (self s)) (record_of (self s) data),
           seen (writing (immediate_start s data)))].
Proof.
  intros L B. cbn zeta. rewrite async_save_immediate.
  assert (L1 : _write_lock (self (immediate_start s data)) = false)
    by exact L.
  destruct (immediate_write_job s data) as (Ho & Hf).
  rewrite <- Ho in B.
  rewrite (handle_write_data_self _ L1 B).
  destruct (handle_write_data_frame _ L1) as (_ & _ & _ & J & F).
  rewrite J, F, Hf. repeat split.
Qed.

Lemma immediate_save_outcome (s : Sys) (data : Json) :
  _write_lock (self s) = false ->
  fst (async_save data None s) =
    match fst (_write_data (self s) (path (self s)) (record_of (self s) data)
                 (hass s)) with
    | Raise SerializationError | Raise WriteError => Ok tt
    | r => r
    end.
Proof.
  intros L. rewrite async_save_immediate.
  assert (L1 : _write_lock (self (immediate_start s data)) = false)
    by exact L.
  rewrite (handle_write_data_outcome _ L1).
  destruct (immediate_write_job s data) as (Ho & _). now rewrite Ho.
Qed.

(** X4. An exception of the writer other than SerializationError and
    WriteError (an OSError of makedirs, say) is not caught: the immediate
    save raises it to its caller; the write lock is released, the buffer
    is empty and both handles of the store are forgotten. *)
Theorem immediate_save_raises_other_errors (s : Sys) (data : Json)
    (e : Exn) :
  _write_lock (self s) = false ->
  e <> SerializationError -> e <> WriteError ->
  fst (_write_data (self s) (path (self s)) (record_of (self s) data)
         (hass s)) = Raise e ->
  fst (async_save data None s) = Raise e /\
  self (snd (async_save data None s)) = unsubscribed JNull (self s) /\
  _write_lock (self (snd (async_save data None s))) = false.
Proof.
  intros L N1 N2 W. split; [| split].
  - rewrite (immediate_save_outcome s data L), W.
    destruct e; try reflexivity; contradiction.
  - apply immediate_save_state; [exact L |]. rewrite W. discriminate.
  - destruct (immediate_save_state s data L) as (E & _).
    + rewrite W. discriminate.
    + rewrite E. exact L.
Qed.

(** X6. An immediate save pre-empts a delayed one.  After save(P1, delay)
    and save(P2) on a quiet store the writer has run once, on the record of
    P2 and with no timer and no listener left; P1 is never written, and
    neither a timer nor the shutdown event triggers anything afterwards. *)
Theorem immediate_save_preempts_delayed (s : Sys) (P1 P2 : Json) (d : Z) :
  quiet s ->
  let s1 := snd (async_save P1 (Some d) s) in
  let s2 := snd (async_save P2 None s1) in
  (exists v,
     jobs (hass s2) =
       jobs (hass s)
         ++ [(JobWriteData (path (self s)) (record_of (self s) P2), v)] /\
     seen_timers v = [] /\ seen_stop_listeners v = []) /\
  timers (hass s2) = [] /\ stop_listeners (hass s2) = [] /\
  (forall h, fire_timer h s2 = (Ok tt, s2)) /\
  fire_stop s2 = (Ok tt, s2).
Proof.
  intros Q. cbn zeta. rewrite async_save_delayed. cbn [snd].
  destruct (delayed_state_armed P1 d Q) as (h & A).
  pose proof (armed_quiet A) as Q1.
  rewrite async_save_immediate, (immediate_start_triggered P2 Q1).
  set (s1 := mkSys (set_data (record_of (self (delayed_state s P1 d)) P2)
                      (self (delayed_state s P1 d)))
                   (hass (delayed_state s P1 d))).
  assert (L1 : _write_lock (self s1) = false) by apply Q1.
  destruct (triggered_write s1 L1) as (J & _ & T & S).
  cbn zeta in J, T, S.
  set (s2 := snd (_handle_write_data (triggered s1))) in *.
  split; [| split; [exact T | split; [exact S | split]]].
  - eexists. split; [rewrite J; reflexivity | split; reflexivity].
  - intros h'. unfold fire_timer. rewrite T. reflexivity.
  - unfold fire_stop. rewrite S. reflexivity.
Qed.

(** X7. A delayed save on a quiet store followed by its timer: the writer
    runs once, on the record of the payload, when the shutdown listener is
    already removed; afterwards nothing is subscribed, so the shutdown
    event, or the timer fired again, writes nothing more. *)
Theorem timer_flushes_once (s : Sys) (P : Json) (d : Z) :
  quiet s ->
  let s1 := snd (async_save P (Some d) s) in
  let s2 := snd (fire_timer (next_handle (hass s)) s1) in
  (exists v,
     jobs (hass s2) =
       jobs (hass s)
         ++ [(JobWriteData (path (self s)) (record_of (self s) P), v)] /\
     seen_stop_listeners v = [] /\ seen_timers v = []) /\
  fs (hass s2) =
    fs (snd (_write_data (self s) (path (self s)) (record_of (self s) P)
               (hass s))) /\
  timers (hass s2) = [] /\ stop_listeners (hass s2) = [] /\
  fire_stop s2 = (Ok tt, s2) /\
  (forall h, fire_timer h s2 = (Ok tt, s2)).
Proof.
  intros Q. cbn zeta. rewrite async_save_delayed. cbn [snd].
  assert (U : untouched s s) by (unfold untouched; auto).
  destruct (delayed_state_write P d U) as (J & F & Pa & Dt & W).
  destruct (delayed_state_armed P d Q) as (h & A).
  destruct (armed_trigger A (or_introl eq_refl)) as (J2 & F2 & T2 & S2).
  cbn zeta in J2, F2, T2, S2.
  set (s2 := snd (fire_timer (next_handle (hass s)) (delayed_state s P d)))
    in *.
  split; [| split; [| split; [| split; [| split]]]].
  - eexists. split; [rewrite J2, J, Pa, Dt; reflexivity |].
    split; reflexivity.
  - rewrite F2. exact W.
  - exact T2.
  - exact S2.
  - unfold fire_stop. rewrite S2. reflexivity.
  - intros h'. unfold fire_timer. rewrite T2. reflexivity.
Qed.

End Saves.

Lemma immediate_save_raises_other_errors_witness :
  fst (async_save Toy.dark None (Toy.sys Toy.full_disk_no_dir)) =
    Raise OSError.
Proof.
  apply (immediate_save_raises_other_errors
           (Toy.sys Toy.full_disk_no_dir) Toy.dark OSError);
    try reflexivity; discriminate.
Defined.

Lemma immediate_save_preempts_delayed_witness :
  timers (hass (snd (async_save Toy.light None
    (snd (async_save Toy.dark (Some 5) (Toy.sys Toy.empty_disk)))))) = [].
Proof.
  apply (immediate_save_preempts_delayed (Toy.sys Toy.empty_disk)
           Toy.dark Toy.light 5).
  repeat split.
Defined.

Lemma timer_flushes_once_witness :
  stop_listeners (hass (snd (fire_timer 0%nat
    (snd (async_save Toy.dark (Some 5) (Toy.sys Toy.empty_disk)))))) = [].
Proof.
  apply (timer_flushes_once (Toy.sys Toy.empty_disk) Toy.dark 5).
  repeat split.
Defined.

(** ** More on loads *)

Section Loads.

Context {os : OS} {cls : StoreClass}.

(** Whatever [load_record] changes is changed by the migration function. *)
Lemma load_record_cases (data : Json) (s : Sys) :
  snd (load_record data s) = s \/
  exists v d, load_record data s = _async_migrate_func v d s.
Proof.
  unfold load_record, bind, get_self, lift.
  destruct (getitem data "version") as [v|e|]; cbn; auto.
  destruct (py_eq_int v (version (self s))).
  - left. now destruct (getitem data "data").
  - destruct (getitem data "data") as [d|e|]; cbn; auto.
    right. now exists v, d.
Qed.

(** X3. Round trip of an immediate save and a load.  When the writer
    succeeds and the platform reads back from the store's path the record
    that was written, the load that follows the save returns the saved
    payload; it reads the storage once, the buffer being empty again. *)
Theorem save_load_round_trip (s : Sys) (P : Json) :
  _write_lock (self s) = false ->
  fst (_write_data (self s) (path (self s)) (record_of (self s) P)
         (hass s)) = Ok tt ->
  json_load_json (path (self s)) (Some JNull)
    (fs (snd (_write_data (self s) (path (self s)) (record_of (self s) P)
                (hass s)))) = Ok (record_of (self s) P) ->
  let s2 := snd (async_save P None s) in
  fst (async_save P None s) = Ok tt /\
  async_load s2 = (Ok P, after_read s2).
Proof.
  intros L W R s2. split.
  - rewrite (immediate_save_outcome s P L), W. reflexivity.
  - destruct (immediate_save_state s P L) as (E & F & _).
    { rewrite W. discriminate. }
    fold s2 in E, F.
    assert (Pa : path (self s2) = path (self s))
      by (unfold path; now rewrite E).
    rewrite (load_reads s2 (rec := record_of (self s) P)).
    + apply load_record_own. cbn. now rewrite E.
    + now rewrite E.
    + rewrite Pa, F. exact R.
    + reflexivity.
Qed.

(** X8. A load changes nothing on its own.  Whatever the buffer and the
    storage hold, the state a load leaves is the state it started from,
    or that state with the one read job traced, or the state the
    migration function left when called from one of these two. *)
Theorem load_is_read_only (s : Sys) :
  snd (async_load s) = s \/
  snd (async_load s) = after_read s \/
  exists v d s0,
    (s0 = s \/ s0 = after_read s) /\
    async_load s = _async_migrate_func v d s0.
Proof.
  destruct (is_None (_data (self s))) eqn:N.
  - assert (E : async_load s =
      match json_load_json (path (self s)) (Some JNull) (fs (hass s)) with
      | Ok data =>
          if is_None data then (Ok (JDict []), after_read s)
          else load_record data (after_read s)
      | Raise e => (Raise e, after_read s)
      | Blocked => (Blocked, after_read s)
      end).
    { unfold async_load, bind, get_self, async_add_executor_job.
      rewrite N. cbn [negb fs add_job].
      destruct (json_load_json (path (self s)) (Some JNull) (fs (hass s)))
        as [a| |]; [destruct (is_None a) | |]; reflexivity. }
    rewrite E.
    destruct (json_load_json (path (self s)) (Some JNull) (fs (hass s)))
      as [data|e|];
      [| right; left; reflexivity | right; left; reflexivity].
    destruct (is_None data); [right; left; reflexivity |].
    destruct (load_record_cases data (after_read s)) as [H | (v & d & H)].
    + right. left. exact H.
    + right. right. exists v, d, (after_read s). auto.
  - assert (E : async_load s = load_record (_data (self s)) s).
    { unfold async_load, bind, get_self. now rewrite N. }
    rewrite E.
    destruct (load_record_cases (_data (self s)) s) as [H | (v & d & H)].
    + left. exact H.
    + right. right. exists v, d, s. auto.
Qed.

(** X9. Edges of a load from storage, the buffer being empty: no record on
    storage gives the empty dictionary; an exception of the reader is
    raised to the caller, no default standing in for it; a stored value
    that is not None and not a dictionary makes the load raise
    TypeError. *)
Theorem load_from_storage_edges (s : Sys) :
  _data (self s) = JNull ->
  (json_load_json (path (self s)) (Some JNull) (fs (hass s)) = Ok JNull ->
   async_load s = (Ok (JDict []), after_read s)) /\
  (forall e,
     json_load_json (path (self s)) (Some JNull) (fs (hass s)) = Raise e ->
     async_load s = (Raise e, after_read s)) /\
  (forall rec,
     json_load_json (path (self s)) (Some JNull) (fs (hass s)) = Ok rec ->
     is_None rec = false ->
     (forall d, rec <> JDict d) ->
     async_load s = (Raise TypeError, after_read s)).
Proof.
  intros D.
  assert (E : async_load s =
              bind (async_add_executor_job (JobLoadJson (path (self s)))
                      (fun w => (json_load_json (path (self s)) (Some JNull)
                                   (fs w), w)))
                   (fun data =>
                      if is_None data then ret (JDict [])
                      else load_record data) s).
  { unfold async_load, bind at 1, get_self. now rewrite D. }
  rewrite E. unfold bind, async_add_executor_job. cbn [fs add_job].
  split; [| split].
  - intros R. rewrite R. reflexivity.
  - intros e R. rewrite R. reflexivity.
  - intros rec R N ND. rewrite R, N. fold (after_read s).
    unfold load_record, bind, get_self, lift.
    destruct rec; try reflexivity. now contradiction (ND d).
Qed.

End Loads.

Lemma save_load_round_trip_witness :
  async_load (cls := BaseStore)
    (snd (async_save Toy.dark None (Toy.sys Toy.empty_disk))) =
  (Ok Toy.dark,
   after_read (snd (async_save Toy.dark None (Toy.sys Toy.empty_disk)))).
Proof.
  apply (save_load_round_trip (cls := BaseStore) (Toy.sys Toy.empty_disk)
           Toy.dark);
    reflexivity.
Defined.

Lemma load_from_storage_edges_witness :
  async_load (cls := BaseStore) (Toy.sys Toy.empty_disk) =
    (Ok (JDict []), after_read (Toy.sys Toy.empty_disk)).
Proof.
  apply (proj1 (load_from_storage_edges (cls := BaseStore)
                  (Toy.sys Toy.empty_disk) eq_refl)).
  reflexivity.
Defined.

(** ** More on the legacy importer *)

Section Importer.

Context {os : OS}.

(** The importer once the legacy content is read and transformed: it is
    the immediate save followed, when the save returns, by the removal. *)
Lemma migrator_after_transform (s s1 : Sys) (old_path : string)
    (f : option (Json -> M Json)) (config payload : Json) :
  os_path_isfile old_path (fs (hass s)) = true ->
  json_load_json old_path None (fs (hass s)) = Ok config ->
  is_None config = false ->
  transformed f config (after_legacy_read s old_path) = (Ok payload, s1) ->
  async_migrator old_path f s =
    (async_save payload None ;;
     async_add_executor_job (JobRemove old_path) (remove_job old_path) ;;
     ret payload) s1.
Proof.
  intros E R N T.
  rewrite migrator_reads with (config := config);
    [| unfold load_old_config; rewrite E; exact R].
  rewrite N. unfold bind at 1. rewrite T. reflexivity.
Qed.

(** X5. The importer keeps the legacy file when it fails before the
    removal.  If the transform raises, the importer raises the same
    exception from the state the transform left: nothing is saved or
    removed.  If the save raises (an exception of the writer that the store
    does not catch), the importer raises it, the writer's job is the last
    job of the trace and the disk is the one the writer left: the removal
    has not run. *)
Theorem migrator_failure_keeps_legacy (s : Sys) (old_path : string)
    (f : option (Json -> M Json)) (config : Json) :
  os_path_isfile old_path (fs (hass s)) = true ->
  json_load_json old_path None (fs (hass s)) = Ok config ->
  is_None config = false ->
  (forall e s1,
     transformed f config (after_legacy_read s old_path) = (Raise e, s1) ->
     async_migrator old_path f s = (Raise e, s1)) /\
  (forall payload s1 e,
     transformed f config (after_legacy_read s old_path) = (Ok payload, s1) ->
     _write_lock (self s1) = false ->
     e <> SerializationError -> e <> WriteError ->
     fst (_write_data (self s1) (path (self s1)) (record_of (self s1) payload)
            (hass s1)) = Raise e ->
     fst (async_migrator old_path f s) = Raise e /\
     fs (hass (snd (async_migrator old_path f s))) =
       fs (snd (_write_data (self s1) (path (self s1))
                  (record_of (self s1) payload) (hass s1))) /\
     exists v,
       jobs (hass (snd (async_migrator old_path f s))) =
         jobs (hass s1)
           ++ [(JobWriteData (path (self s1)) (record_of (self s1) payload),
                v)]).
Proof.
  intros E R N. split.
  - intros e s1 T.
    rewrite migrator_reads with (config := config);
      [| unfold load_old_config; rewrite E; exact R].
    rewrite N. unfold bind at 1. rewrite T. reflexivity.
  - intros payload s1 e T L N1 N2 W.
    assert (O : fst (async_save payload None s1) = Raise e).
    { rewrite (immediate_save_outcome s1 payload L), W.
      destruct e; try reflexivity; contradiction. }
    destruct (immediate_save_state s1 payload L) as (_ & F & J).
    { rewrite W. discriminate. }
    assert (Hout : async_migrator old_path f s =
                   (Raise e, snd (async_save payload None s1))).
    { rewrite (migrator_after_transform s s1 old_path f config payload
                 E R N T).
      unfold bind at 1.
      destruct (async_save payload None s1) as [r s2].
      cbn [fst snd] in *. now subst r. }
    rewrite Hout. cbn [fst snd].
    split; [reflexivity | split; [exact F |]].
    eexists. exact J.
Qed.

(** X10. The importer and a load compose.  When the transform, the writer
    and the removal succeed and the platform reads back from the store's
    path, after the removal, the record that was written, the importer
    returns the payload and a load of the same store returns it too. *)
Theorem migrator_then_load {cls : StoreClass} (s s1 : Sys)
    (old_path : string) (f : option (Json -> M Json))
    (config payload : Json) :
  os_path_isfile old_path (fs (hass s)) = true ->
  json_load_json old_path None (fs (hass s)) = Ok config ->
  is_None config = false ->
  transformed f config (after_legacy_read s old_path) = (Ok payload, s1) ->
  _write_lock (self s1) = false ->
  let written := _write_data (self s1) (path (self s1))
                   (record_of (self s1) payload) (hass s1) in
  fst written = Ok tt ->
  fst (os_remove old_path (fs (snd written))) = Ok tt ->
  json_load_json (path (self s1)) (Some JNull)
    (snd (os_remove old_path (fs (snd written)))) =
    Ok (record_of (self s1) payload) ->
  let out := async_migrator old_path f s in
  fst out = Ok payload /\
  async_load (snd out) = (Ok payload, after_read (snd out)).
Proof.
  intros E R N T L written W D Rd out.
  assert (O : fst (async_save payload None s1) = Ok tt).
  { rewrite (immediate_save_outcome s1 payload L). fold written.
    rewrite W. reflexivity. }
  destruct (immediate_save_state s1 payload L) as (Es & F & _).
  { fold written. rewrite W. discriminate. }
  fold written in F.
  set (s2 := snd (async_save payload None s1)) in *.
  assert (Hout : out =
    (Ok payload,
     mkSys (self s2)
       (set_fs (snd (os_remove old_path (fs (snd written))))
          (add_job (JobRemove old_path) (seen s2) (hass s2))))).
  { unfold out.
    rewrite (migrator_after_transform s s1 old_path f config payload E R N T).
    unfold bind at 1. unfold s2 in *.
    destruct (async_save payload None s1) as [r s2'].
    cbn [fst snd] in *. subst r.
    unfold bind, async_add_executor_job, remove_job, ret. cbn [fs add_job].
    rewrite F.
    destruct (os_remove old_path (fs (snd written))) as [[[]|e|] x];
      try discriminate D.
    reflexivity. }
  rewrite Hout. cbn [fst snd]. split; [reflexivity |].
  match goal with |- async_load ?t = _ => set (s3 := t) end.
  assert (E3 : self s3 = unsubscribed JNull (self s1)) by exact Es.
  rewrite (load_reads s3 (rec := record_of (self s1) payload)).
  - apply load_record_own. cbn. now rewrite Es.
  - now rewrite E3.
  - unfold path. rewrite E3. exact Rd.
  - reflexivity.
Qed.

End Importer.

Lemma migrator_failure_keeps_legacy_witness :
  fst (async_migrator Toy.legacy_path None
         (Toy.sys (Toy.legacy_full_no_dir Toy.dark))) = Raise OSError.
Proof.
  apply (proj2 (migrator_failure_keeps_legacy
                  (Toy.sys (Toy.legacy_full_no_dir Toy.dark))
                  Toy.legacy_path None Toy.dark eq_refl eq_refl eq_refl)
           Toy.dark
           (after_legacy_read (Toy.sys (Toy.legacy_full_no_dir Toy.dark))
              Toy.legacy_path)
           OSError);
    try reflexivity; discriminate.
Defined.

Lemma migrator_then_load_witness :
  async_load (cls := BaseStore)
    (snd (async_migrator Toy.legacy_path None
            (Toy.sys (Toy.legacy_disk Toy.dark false)))) =
  (Ok Toy.dark,
   after_read (snd (async_migrator Toy.legacy_path None
                      (Toy.sys (Toy.legacy_disk Toy.dark false))))).
Proof.
  apply (migrator_then_load (cls := BaseStore)
           (Toy.sys (Toy.legacy_disk Toy.dark false))
           (after_legacy_read (Toy.sys (Toy.legacy_disk Toy.dark false))
              Toy.legacy_path)
           Toy.legacy_path None Toy.dark Toy.dark);
    reflexivity.
Defined.

(** ** The shutdown listener across delayed saves *)

Section Listener.

Context {os : OS}.

(** A delayed save on an armed store keeps the listener and replaces the
    timer. *)
Lemma delayed_state_on_armed (s : Sys) (n : Handle) (d : Z) (h : Handle)
    (P : Json) (d2 : Z) :
  armed s n d h ->
  stop_listeners (hass (delayed_state s P d2)) = [h] /\
  _unsub_stop_listener (self (delayed_state s P d2)) = Some h /\
  timers (hass (delayed_state s P d2)) = [(next_handle (hass s), d2)].
Proof.
  intros (T & S & UD & US & L). unfold delayed_state. cbn.
  rewrite US, UD, T, S. cbn. rewrite Nat.eqb_refl. auto.
Qed.

(** X11. The shutdown listener is registered once.  Of two delayed saves
    in a row on a quiet store, the second keeps the one listener the first
    left (the store holds the same handle) and replaces the timer: one
    timer is pending after each save, the second with a newer handle and
    the second delay. *)
Theorem delayed_saves_share_listener (s : Sys) (P1 P2 : Json) (d1 d2 : Z) :
  quiet s ->
  let s1 := snd (async_save P1 (Some d1) s) in
  let s2 := snd (async_save P2 (Some d2) s1) in
  (exists h,
     stop_listeners (hass s1) = [h] /\ stop_listeners (hass s2) = [h] /\
     _unsub_stop_listener (self s1) = Some h /\
     _unsub_stop_listener (self s2) = Some h) /\
  exists n1 n2,
    timers (hass s1) = [(n1, d1)] /\ timers (hass s2) = [(n2, d2)] /\
    (n1 < n2)%nat.
Proof.
  intros Q. cbn zeta. rewrite !async_save_delayed. cbn [snd].
  destruct (delayed_state_armed P1 d1 Q) as (h & A).
  destruct (delayed_state_on_armed _ _ _ _ P2 d2 A) as (S2 & US2 & T2).
  destruct A as (T1 & S1 & UD1 & US1 & L1).
  split.
  - exists h. auto.
  - exists (next_handle (hass s)), (next_handle (hass (delayed_state s P1 d1))).
    split; [exact T1 | split; [exact T2 |]].
    unfold delayed_state. cbn.
    destruct (_unsub_stop_listener (self s)); lia.
Qed.

End Listener.

Lemma delayed_saves_share_listener_witness :
  exists n1 n2,
    timers (hass (snd (async_save Toy.dark (Some 5)
                         (Toy.sys Toy.empty_disk)))) = [(n1, 5)] /\
    timers (hass (snd (async_save Toy.light (Some 9)
                         (snd (async_save Toy.dark (Some 5)
                                 (Toy.sys Toy.empty_disk)))))) = [(n2, 9)] /\
    (n1 < n2)%nat.
Proof.
  apply (delayed_saves_share_listener (Toy.sys Toy.empty_disk)
           Toy.dark Toy.light 5 9).
  repeat split.
Defined.
